(** * Verification of the line-oriented extraction engine of Converte_PDF_Excel

    The development embeds the two profile scanners of [src/extractors.py]
    ([RedeBizExtractor._process_redebiz_text] and
    [MondelezExtractor._process_text]) together with the pieces of the
    Python runtime they rely on: [str] methods, the [re] module (a
    backtracking matcher with Python's leftmost, priority-ordered
    semantics) and [float()].  It also embeds the generic
    [TextExtractor._process_text], the page layout of
    [MondelezExtractor._extract_text_custom] and the three [extract]
    drivers, from the text or the words of each page.

    Text is a list of Unicode code points.  Character classification
    ([str.isspace], [\s], [\d], [\w]) and case mapping ([str.upper],
    [str.lower] and [re.IGNORECASE]) follow CPython exactly on the
    Latin-1 range U+0000..U+00FF, which contains every letter of the
    Portuguese documents handled by the program.  [str.isspace] is exact on
    all of Unicode; other code points above U+00FF are treated as caseless
    symbols that are neither letters nor digits. *)

From Stdlib Require Import List String Ascii NArith ZArith Bool Arith Lia.
From Stdlib Require QArith.
From Stdlib Require Permutation.
Import ListNotations.
Open Scope list_scope.

Module Py.

Local Open Scope N_scope.

Definition char := N.
Definition str := list char.

(** Rocq string literals are UTF-8 byte sequences; [u] decodes them into
    code points so that literals of the Python source can be written as
    they appear there. *)
Fixpoint utf8_decode (bs : list N) : str :=
  match bs with
  | [] => []
  | b0 :: r =>
      if (b0 <? 128)%N then b0 :: utf8_decode r
      else if (b0 <? 224)%N then
        match r with
        | b1 :: r1 => ((b0 - 192) * 64 + (b1 - 128))%N :: utf8_decode r1
        | [] => [b0]
        end
      else if (b0 <? 240)%N then
        match r with
        | b1 :: b2 :: r2 =>
            ((b0 - 224) * 4096 + (b1 - 128) * 64 + (b2 - 128))%N :: utf8_decode r2
        | _ => [b0]
        end
      else
        match r with
        | b1 :: b2 :: b3 :: r3 =>
            ((b0 - 240) * 262144 + (b1 - 128) * 4096 + (b2 - 128) * 64
             + (b3 - 128))%N :: utf8_decode r3
        | _ => [b0]
        end
  end.

Definition u (s : string) : str :=
  utf8_decode (map (fun a => N.of_nat (nat_of_ascii a)) (list_ascii_of_string s)).

(** ** Character classes *)

Definition in_range (lo hi c : char) : bool := ((lo <=? c) && (c <=? hi))%N.

(** [str.isspace], identical to the class [\s] of [re] on [str] patterns. *)
Definition isspace (c : char) : bool :=
  in_range 9 13 c || in_range 28 32 c || (c =? 133)%N || (c =? 160)%N
  || (c =? 5760)%N || in_range 8192 8202 c || (c =? 8232)%N || (c =? 8233)%N
  || (c =? 8239)%N || (c =? 8287)%N || (c =? 12288)%N.

(** [\d]: the ASCII decimal digits.  Python's [\d] on str patterns also
    matches the other Unicode decimal digits; the model is exact on ASCII
    input. *)
Definition isdigit (c : char) : bool := in_range 48 57 c.

(** [\w]: alphanumerics and the underscore. *)
Definition isword (c : char) : bool :=
  in_range 48 57 c || in_range 65 90 c || (c =? 95)%N || in_range 97 122 c
  || (c =? 170)%N || (c =? 178)%N || (c =? 179)%N || (c =? 181)%N
  || (c =? 185)%N || (c =? 186)%N || in_range 188 190 c
  || in_range 192 214 c || in_range 216 246 c || in_range 248 255 c.

(** [str.upper] on one code point; it may produce two ([ß] gives [SS]). *)
Definition upper_char (c : char) : str :=
  if in_range 97 122 c then [(c - 32)%N]
  else if (c =? 181)%N then [924%N]
  else if (c =? 223)%N then [83%N; 83%N]
  else if in_range 224 246 c || in_range 248 254 c then [(c - 32)%N]
  else if (c =? 255)%N then [376%N]
  else [c].

(** [str.lower] on one code point. *)
Definition lower_char (c : char) : char :=
  if in_range 65 90 c || in_range 192 214 c || in_range 216 222 c
  then (c + 32)%N else c.

(** ** [str] methods *)

Fixpoint str_eqb (s t : str) : bool :=
  match s, t with
  | [], [] => true
  | a :: s', b :: t' => (a =? b)%N && str_eqb s' t'
  | _, _ => false
  end.

Fixpoint prefixb (t s : str) : bool :=
  match t, s with
  | [], _ => true
  | a :: t', b :: s' => (a =? b)%N && prefixb t' s'
  | _ :: _, [] => false
  end.

Fixpoint find_from (t s : str) (i : nat) : option nat :=
  if prefixb t s then Some i
  else match s with
       | [] => None
       | _ :: s' => find_from t s' (S i)
       end.

(** [s.find(t)], with [None] for Python's [-1]. *)
Definition find (t s : str) : option nat := find_from t s 0.

(** [t in s]. *)
Definition contains (t s : str) : bool :=
  match find t s with Some _ => true | None => false end.

Fixpoint lstrip (s : str) : str :=
  match s with
  | c :: r => if isspace c then lstrip r else s
  | [] => []
  end.

Definition rstrip (s : str) : str := rev (lstrip (rev s)).

(** [s.strip()]. *)
Definition strip (s : str) : str := rstrip (lstrip s).

Fixpoint split_ws_aux (s : str) (cur : str) : list str :=
  match s with
  | [] => match cur with [] => [] | _ => [rev cur] end
  | c :: r =>
      if isspace c then
        match cur with
        | [] => split_ws_aux r []
        | _ => rev cur :: split_ws_aux r []
        end
      else split_ws_aux r (c :: cur)
  end.

(** [s.split()]. *)
Definition split_ws (s : str) : list str := split_ws_aux s [].

(** [sep.join(l)]. *)
Fixpoint join (sep : str) (l : list str) : str :=
  match l with
  | [] => []
  | [x] => x
  | x :: r => x ++ sep ++ join sep r
  end.

(** [s.upper()]. *)
Definition upper (s : str) : str := flat_map upper_char s.

Fixpoint replace_aux (fuel : nat) (old new s : str) : str :=
  match fuel with
  | O => s
  | S f =>
      match s with
      | [] => []
      | c :: r =>
          if prefixb old s then new ++ replace_aux f old new (skipn (List.length old) s)
          else c :: replace_aux f old new r
      end
  end.

(** [s.replace(old, new)] for a non-empty [old]. *)
Definition replace (old new s : str) : str := replace_aux (List.length s) old new s.

(** Truthiness of a string. *)
Definition truthy (s : str) : bool := match s with [] => false | _ => true end.

End Py.

(** * The [re] module

    Regular expressions are parsed from the source's pattern strings into
    an abstract syntax and run by a backtracking matcher written in
    continuation-passing style: alternatives are tried left to right,
    greedy repetitions try one more iteration before leaving, lazy ones the
    reverse, exactly in the order of CPython's [sre] engine.  Counted
    repetitions [{m,n}] are unfolded into [m] copies followed by nested
    optional copies. *)
Module Re.
Import Py.

Inductive re : Type :=
| Eps
| Lit (c : char)
| Cls (p : char -> bool)
| AnyNL
| Bol
| Eol
| WordB
| Cat (r1 r2 : re)
| Alt (r1 r2 : re)
| Star (greedy : bool) (r : re)
| Grp (n : nat) (r : re).

(** Capture groups: the most recent binding of a group comes first. *)
Definition caps := list (nat * (nat * nat)).
Definition res := option (nat * caps).

Definition upper1 (c : char) : char :=
  match upper_char c with [d] => d | _ => c end.

Section Matcher.
Variable ic : bool.    (** [re.IGNORECASE] *)
Variable inp : str.

Definition char_at (i : nat) : option char := nth_error inp i.

Definition lit_ok (c x : char) : bool :=
  if ic then N.eqb (lower_char x) (lower_char c) else N.eqb x c.

Definition cls_ok (p : char -> bool) (x : char) : bool :=
  if ic then p x || p (lower_char x) || p (upper1 x) else p x.

Definition word_at (i : nat) : bool :=
  match char_at i with Some x => isword x | None => false end.

(** The iterations of [Star g r1], given the matcher [mr] of [r1]: at most
    [fuel] of them, each one consuming at least one character. *)
Fixpoint star_loop (mr : (nat -> caps -> res) -> nat -> caps -> res) (g : bool)
         (k : nat -> caps -> res) (fuel : nat) (j : nat) (cs : caps) : res :=
  match fuel with
  | O => k j cs
  | S f =>
      let next := fun j' cs' => if Nat.ltb j j' then star_loop mr g k f j' cs' else None in
      if g then
        match mr next j cs with
        | Some x => Some x
        | None => k j cs
        end
      else
        match k j cs with
        | Some x => Some x
        | None => mr next j cs
        end
  end.

Fixpoint m (r : re) (k : nat -> caps -> res) (i : nat) (cs : caps) {struct r} : res :=
  match r with
  | Eps => k i cs
  | Lit c =>
      match char_at i with
      | Some x => if lit_ok c x then k (S i) cs else None
      | None => None
      end
  | Cls p =>
      match char_at i with
      | Some x => if cls_ok p x then k (S i) cs else None
      | None => None
      end
  | AnyNL =>
      match char_at i with
      | Some x => if N.eqb x 10 then None else k (S i) cs
      | None => None
      end
  | Bol => if Nat.eqb i 0 then k i cs else None
  | Eol =>
      if Nat.eqb i (List.length inp)
         || (Nat.eqb (S i) (List.length inp)
             && match char_at i with Some x => N.eqb x 10 | None => false end)
      then k i cs else None
  | WordB =>
      let before := match i with O => false | S j => word_at j end in
      if xorb before (word_at i) then k i cs else None
  | Cat r1 r2 => m r1 (fun j cs' => m r2 k j cs') i cs
  | Alt r1 r2 =>
      match m r1 k i cs with
      | Some x => Some x
      | None => m r2 k i cs
      end
  | Star g r1 => star_loop (m r1) g k (S (List.length inp - i)) i cs
  | Grp n r1 => m r1 (fun j cs' => k j ((n, (i, j)) :: cs')) i cs
  end.

Definition accept : nat -> caps -> res := fun j cs => Some (j, cs).

Definition match_at (r : re) (i : nat) : res := m r accept i [].

(** Leftmost match starting at a position [>= i]. *)
Fixpoint search_from (r : re) (fuel : nat) (i : nat) : option (nat * nat * caps) :=
  match match_at r i with
  | Some (j, cs) => Some (i, j, cs)
  | None =>
      match fuel with
      | O => None
      | S f => search_from r f (S i)
      end
  end.

(** The matching relation the matcher implements: [sem r i cs j cs'] when
    [r] matches [inp] from [i] to [j], turning the captures [cs] into [cs']. *)
Inductive sem : re -> nat -> caps -> nat -> caps -> Prop :=
| sem_eps i cs : sem Eps i cs i cs
| sem_lit c x i cs : char_at i = Some x -> lit_ok c x = true -> sem (Lit c) i cs (S i) cs
| sem_cls p x i cs : char_at i = Some x -> cls_ok p x = true -> sem (Cls p) i cs (S i) cs
| sem_any x i cs : char_at i = Some x -> N.eqb x 10 = false -> sem AnyNL i cs (S i) cs
| sem_bol cs : sem Bol 0 cs 0 cs
| sem_eol i cs :
    (Nat.eqb i (List.length inp)
     || (Nat.eqb (S i) (List.length inp)
         && match char_at i with Some x => N.eqb x 10 | None => false end)) = true ->
    sem Eol i cs i cs
| sem_wordb i cs :
    xorb (match i with O => false | S j => word_at j end) (word_at i) = true ->
    sem WordB i cs i cs
| sem_cat r1 r2 i j k cs cs1 cs2 :
    sem r1 i cs j cs1 -> sem r2 j cs1 k cs2 -> sem (Cat r1 r2) i cs k cs2
| sem_alt1 r1 r2 i j cs cs' : sem r1 i cs j cs' -> sem (Alt r1 r2) i cs j cs'
| sem_alt2 r1 r2 i j cs cs' : sem r2 i cs j cs' -> sem (Alt r1 r2) i cs j cs'
| sem_star0 g r i cs : sem (Star g r) i cs i cs
| sem_starS g r i j k cs cs1 cs2 :
    sem r i cs j cs1 -> i < j -> sem (Star g r) j cs1 k cs2 -> sem (Star g r) i cs k cs2
| sem_grp n r i j cs cs' : sem r i cs j cs' -> sem (Grp n r) i cs j ((n, (i, j)) :: cs').

End Matcher.

(** The capture groups a pattern can bind. *)
Fixpoint grps (r : re) : list nat :=
  match r with
  | Cat a b | Alt a b => grps a ++ grps b
  | Star _ a => grps a
  | Grp n a => n :: grps a
  | _ => []
  end.

(** A match object. *)
Record mobj := MObj { m_inp : str; m_start : nat; m_end : nat; m_caps : caps }.

Fixpoint lookup_cap (n : nat) (cs : caps) : option (nat * nat) :=
  match cs with
  | [] => None
  | (k, v) :: r => if Nat.eqb k n then Some v else lookup_cap n r
  end.

Definition slice (s : str) (a b : nat) : str := firstn (b - a) (skipn a s).

(** [mo.group(n)]; [None] for a group that did not participate. *)
Definition group (mo : mobj) (n : nat) : option str :=
  match n with
  | O => Some (slice (m_inp mo) (m_start mo) (m_end mo))
  | _ => match lookup_cap n (m_caps mo) with
         | Some (a, b) => Some (slice (m_inp mo) a b)
         | None => None
         end
  end.

Definition group_str (mo : mobj) (n : nat) : str :=
  match group mo n with Some s => s | None => [] end.

(** [re.search(pattern, s, flags)]. *)
Definition search_ic (ic : bool) (r : re) (s : str) : option mobj :=
  match search_from ic s r (List.length s) 0 with
  | Some (a, b, cs) => Some (MObj s a b cs)
  | None => None
  end.

Definition search (r : re) (s : str) : option mobj := search_ic false r s.

(** [re.match(pattern, s)]: anchored at position 0. *)
Definition rmatch (r : re) (s : str) : option mobj :=
  match match_at false s r 0 with
  | Some (b, cs) => Some (MObj s 0 b cs)
  | None => None
  end.

(** [re.finditer]: successive non-overlapping matches, left to right; after
    an empty match the scan resumes one position further. *)
Fixpoint finditer_from (ic : bool) (r : re) (s : str) (fuel : nat) (i : nat) : list mobj :=
  match fuel with
  | O => []
  | S f =>
      if Nat.ltb (List.length s) i then []
      else
        match search_from ic s r (List.length s - i) i with
        | Some (a, b, cs) =>
            MObj s a b cs :: finditer_from ic r s f (if Nat.eqb a b then S b else b)
        | None => []
        end
  end.

Definition finditer_ic (ic : bool) (r : re) (s : str) : list mobj :=
  finditer_from ic r s (S (List.length s)) 0.

Definition finditer (r : re) (s : str) : list mobj := finditer_ic false r s.

(** [re.findall] for a pattern without groups, and for a pattern whose only
    group is group 1. *)
Definition findall0 (r : re) (s : str) : list str :=
  map (fun mo => group_str mo 0) (finditer r s).
Definition findall1 (r : re) (s : str) : list str :=
  map (fun mo => group_str mo 1) (finditer r s).

Fixpoint splice (s : str) (repl : str) (p : nat) (ms : list mobj) : str :=
  match ms with
  | [] => skipn p s
  | mo :: r => slice s p (m_start mo) ++ repl ++ splice s repl (m_end mo) r
  end.

(** [re.sub(pattern, repl, s)] with a literal replacement. *)
Definition sub (r : re) (repl s : str) : str := splice s repl 0 (finditer r s).

(** [re.split(pattern, s, maxsplit=1, flags)[0]] for a pattern without
    groups: the text before the first match. *)
Definition split_first (ic : bool) (r : re) (s : str) : str :=
  match search_ic ic r s with
  | Some mo => firstn (m_start mo) s
  | None => s
  end.

(** ** Pattern syntax *)

Definition esc_char (e : char) : char :=
  if N.eqb e 110 then 10%N else if N.eqb e 116 then 9%N else e.

Definition class_escape (e : char) : option (char -> bool) :=
  if N.eqb e 100 then Some isdigit
  else if N.eqb e 68 then Some (fun x => negb (isdigit x))
  else if N.eqb e 115 then Some isspace
  else if N.eqb e 83 then Some (fun x => negb (isspace x))
  else if N.eqb e 119 then Some isword
  else if N.eqb e 87 then Some (fun x => negb (isword x))
  else None.

Definition esc_pred (e : char) : char -> bool :=
  match class_escape e with
  | Some p => p
  | None => fun x => N.eqb x (esc_char e)
  end.

(** The items of a bracket class, up to the closing [']']. *)
Fixpoint p_class (fuel : nat) (s : str) (acc : char -> bool) : option ((char -> bool) * str) :=
  match fuel with
  | O => None
  | S f =>
      match s with
      | [] => None
      | c :: r =>
          if N.eqb c 93 then Some (acc, r)
          else if N.eqb c 92 then
            match r with
            | e :: r' => let p := esc_pred e in p_class f r' (fun x => acc x || p x)
            | [] => None
            end
          else
            match r with
            | d :: b :: r' =>
                if N.eqb d 45 && negb (N.eqb b 93) && negb (N.eqb b 92) then
                  p_class f r' (fun x => acc x || in_range c b x)
                else p_class f r (fun x => acc x || N.eqb x c)
            | _ => p_class f r (fun x => acc x || N.eqb x c)
            end
      end
  end.

Fixpoint p_num (s : str) (acc : nat) (seen : bool) : option (nat * str) :=
  match s with
  | c :: r =>
      if isdigit c then p_num r (acc * 10 + N.to_nat (c - 48)) true
      else if seen then Some (acc, s) else None
  | [] => if seen then Some (acc, s) else None
  end.

Fixpoint copies (n : nat) (a : re) : re :=
  match n with O => Eps | S n' => Cat a (copies n' a) end.

Fixpoint upto (n : nat) (g : bool) (a : re) : re :=
  match n with
  | O => Eps
  | S n' => if g then Alt (Cat a (upto n' g a)) Eps else Alt Eps (Cat a (upto n' g a))
  end.

(** [a{mn,}] and [a{mn,mx}]. *)
Definition rep (a : re) (mn : nat) (mx : option nat) (g : bool) : re :=
  match mx with
  | None => Cat (copies mn a) (Star g a)
  | Some n => Cat (copies mn a) (upto (n - mn) g a)
  end.

(** A quantifier, if any, after an atom; a trailing [?] makes it lazy. *)
Definition p_quant (a : re) (s : str) : re * str :=
  let lazy_of (s' : str) : bool * str :=
    match s' with c :: r => if N.eqb c 63 then (false, r) else (true, s') | [] => (true, s') end in
  match s with
  | c :: r =>
      if N.eqb c 42 then let '(g, r') := lazy_of r in (Star g a, r')
      else if N.eqb c 43 then let '(g, r') := lazy_of r in (Cat a (Star g a), r')
      else if N.eqb c 63 then
        let '(g, r') := lazy_of r in (if g then Alt a Eps else Alt Eps a, r')
      else if N.eqb c 123 then
        match p_num r 0 false with
        | Some (mn, c1 :: r1) =>
            if N.eqb c1 125 then let '(g, r') := lazy_of r1 in (rep a mn (Some mn) g, r')
            else if N.eqb c1 44 then
              match r1 with
              | c2 :: r2 =>
                  if N.eqb c2 125 then let '(g, r') := lazy_of r2 in (rep a mn None g, r')
                  else match p_num r1 0 false with
                       | Some (mx, c3 :: r3) =>
                           if N.eqb c3 125 then let '(g, r') := lazy_of r3 in (rep a mn (Some mx) g, r')
                           else (a, s)
                       | _ => (a, s)
                       end
              | [] => (a, s)
              end
            else (a, s)
        | _ => (a, s)
        end
      else (a, s)
  | [] => (a, s)
  end.

(** Recursive descent over alternation, sequence and atom; [g] counts the
    capturing groups opened so far. *)
Fixpoint p_alt (fuel : nat) (s : str) (g : nat) {struct fuel} : option (re * str * nat) :=
  match fuel with
  | O => None
  | S f =>
      match p_seq f s g with
      | Some (l, r, g1) =>
          let a := fold_right Cat Eps l in
          match r with
          | c :: r' =>
              if N.eqb c 124 then
                match p_alt f r' g1 with
                | Some (b, r2, g2) => Some (Alt a b, r2, g2)
                | None => None
                end
              else Some (a, r, g1)
          | [] => Some (a, r, g1)
          end
      | None => None
      end
  end
with p_seq (fuel : nat) (s : str) (g : nat) {struct fuel} : option (list re * str * nat) :=
  match fuel with
  | O => None
  | S f =>
      match s with
      | [] => Some ([], s, g)
      | c :: _ =>
          if N.eqb c 41 || N.eqb c 124 then Some ([], s, g)
          else
            match p_atom f s g with
            | Some (a, r, g1) =>
                let '(a', r') := p_quant a r in
                match p_seq f r' g1 with
                | Some (l, r2, g2) => Some (a' :: l, r2, g2)
                | None => None
                end
            | None => None
            end
      end
  end
with p_atom (fuel : nat) (s : str) (g : nat) {struct fuel} : option (re * str * nat) :=
  match fuel with
  | O => None
  | S f =>
      match s with
      | [] => None
      | c :: r =>
          if N.eqb c 40 then
            match r with
            | q :: col :: r' =>
                if N.eqb q 63 && N.eqb col 58 then
                  match p_alt f r' g with
                  | Some (a, cl :: r2, g1) => if N.eqb cl 41 then Some (a, r2, g1) else None
                  | _ => None
                  end
                else
                  match p_alt f r (S g) with
                  | Some (a, cl :: r2, g1) => if N.eqb cl 41 then Some (Grp (S g) a, r2, g1) else None
                  | _ => None
                  end
            | _ =>
                match p_alt f r (S g) with
                | Some (a, cl :: r2, g1) => if N.eqb cl 41 then Some (Grp (S g) a, r2, g1) else None
                | _ => None
                end
            end
          else if N.eqb c 91 then
            match r with
            | h :: r' =>
                if N.eqb h 94 then
                  match p_class f r' (fun _ => false) with
                  | Some (p, r2) => Some (Cls (fun x => negb (p x)), r2, g)
                  | None => None
                  end
                else
                  match p_class f r (fun _ => false) with
                  | Some (p, r2) => Some (Cls p, r2, g)
                  | None => None
                  end
            | [] => None
            end
          else if N.eqb c 46 then Some (AnyNL, r, g)
          else if N.eqb c 94 then Some (Bol, r, g)
          else if N.eqb c 36 then Some (Eol, r, g)
          else if N.eqb c 92 then
            match r with
            | e :: r' =>
                if N.eqb e 98 then Some (WordB, r', g)
                else match class_escape e with
                     | Some p => Some (Cls p, r', g)
                     | None => Some (Lit (esc_char e), r', g)
                     end
            | [] => None
            end
          else Some (Lit c, r, g)
      end
  end.

Definition parse (s : str) : option re :=
  match p_alt (4 * List.length s + 4) s 0 with
  | Some (r, [], _) => Some r
  | _ => None
  end.

(** The compiled form of a pattern string of the source. *)
Definition compile (s : string) : re :=
  match parse (u s) with Some r => r | None => Eps end.

Definition parses (s : string) : bool :=
  match parse (u s) with Some _ => true | None => false end.

End Re.

(** * [float()] and the numeric conversions *)
Module Num.
Import Py.
Import QArith.

(** A Python [float], by the decimal value it denotes (rounding to binary64
    is the same on both sides of every equation stated below and is not
    modelled). *)
Inductive pyfloat := PFin (q : Q) | PInf (neg : bool) | PNaN.

Fixpoint digits_aux (s : str) (acc : list N) : list N * str :=
  match s with
  | c :: r =>
      if isdigit c then digits_aux r (acc ++ [(c - 48)%N])
      else if N.eqb c 95 then
        match r with
        | d :: r' => if isdigit d then digits_aux r' (acc ++ [(d - 48)%N]) else (acc, s)
        | [] => (acc, s)
        end
      else (acc, s)
  | [] => (acc, s)
  end.

(** [digitpart ::= digit (["_"] digit)*] *)
Definition digitpart (s : str) : option (list N * str) :=
  match s with
  | c :: _ => if isdigit c then Some (digits_aux s []) else None
  | [] => None
  end.

Definition digits_value (ds : list N) : Z :=
  fold_left (fun acc d => (acc * 10 + Z.of_N d)%Z) ds 0%Z.

Definition lower_str (s : str) : str := map lower_char s.

Definition sign_of (s : str) : bool * str :=
  match s with
  | c :: r => if N.eqb c 45 then (true, r) else if N.eqb c 43 then (false, r) else (false, s)
  | [] => (false, s)
  end.

Definition scale (m : Z) (e : Z) : Q :=
  if (0 <=? e)%Z then inject_Z (m * 10 ^ e) else Qmake m (Z.to_pos (10 ^ (- e))).

(** [intpart ["." [fraction]] | "." fraction], then an optional exponent. *)
Definition p_number (s : str) : option (Z * Z) :=
  let '(ip, s1) := match digitpart s with Some (d, r) => (d, r) | None => ([], s) end in
  let '(fp, s2, dot) :=
    match s1 with
    | c :: r => if N.eqb c 46
                then match digitpart r with Some (d, r') => (d, r', true) | None => ([], r, true) end
                else ([], s1, false)
    | [] => ([], s1, false)
    end in
  if (Nat.eqb (List.length ip) 0 && Nat.eqb (List.length fp) 0) then None
  else
    let m := digits_value (ip ++ fp) in
    let f := Z.of_nat (List.length fp) in
    match s2 with
    | [] => Some (m, (- f)%Z)
    | c :: r =>
        if N.eqb c 101 || N.eqb c 69 then
          let '(neg, r1) := sign_of r in
          match digitpart r1 with
          | Some (d, []) =>
              let e := digits_value d in Some (m, ((if neg then - e else e) - f)%Z)
          | _ => None
          end
        else None
    end.

(** [float(s)] on a string; [None] where CPython raises [ValueError].  The
    value is the exact rational: binary64 rounding and the overflow to
    infinity beyond about 1.8e308 are not modelled, nor are non-ASCII digits. *)
Definition py_float (s : str) : option pyfloat :=
  let t := strip s in
  let '(neg, body) := sign_of t in
  let lb := lower_str body in
  if str_eqb lb (u "inf") || str_eqb lb (u "infinity") then Some (PInf neg)
  else if str_eqb lb (u "nan") then Some PNaN
  else
    match p_number body with
    | Some (m, e) => Some (PFin (scale (if neg then - m else m)%Z e))
    | None => None
    end.

(** [conv_num] of [RedeBizExtractor._process_redebiz_text] and
    [MondelezExtractor._conv_num] (both read the same), applied to a [str]. *)
Definition conv_num (val : str) : pyfloat :=
  let val_clean := replace (u ",") (u ".") (replace (u ".") (u "") val) in
  match py_float val_clean with
  | Some f => f
  | None => PFin 0
  end.

Definition all_digits (s : str) : bool := forallb isdigit s.

(** [pd.to_numeric(x, errors='coerce')], then [fillna(0).astype('int64')],
    on one cell.  The identifier cells the scanners fill are digit strings
    or the empty string; a digit string becomes its value, anything else is
    coerced to NaN and then to 0.  Values are unbounded: the int64 wrap-around
    above 2^63 and the float64 rounding above 2^53 are not modelled. *)
Definition to_int64 (s : str) : Z :=
  match s with
  | [] => 0%Z
  | _ => if all_digits s then digits_value (map (fun c => (c - 48)%N) s) else 0%Z
  end.

End Num.

(** * Records of the scan *)
Module Rec.
Import Py Num.

(** The order dictionary built by [_novo_pedido_dict] and by the RedeBiz scan
    (same keys, same order). *)
Record pedido := Pedido {
  numero_do_pedido : str;
  fornecedor : str;
  cnpj_fornecedor : str;
  cliente : str;
  cnpj_cliente : str;
  endereco_entrega : str;
  cidade_entrega : str;
  data_limite_entrega : str;
  condicao_frete : str;
  data_emissao : str;
  valor_total : str }.

Definition novo_pedido_dict (numero : str) : pedido :=
  Pedido numero [] [] [] [] [] [] [] [] [] [].

Inductive pfield := Fornecedor | CNPJFornecedor | Cliente | CNPJCliente
  | DataLimiteEntrega | CondicaoFrete | DataEmissao | ValorTotal.

(** [current_pedido[field] = v] *)
Definition pset (p : pedido) (f : pfield) (v : str) : pedido :=
  let '(Pedido n fo cf cl cc ee ce dl fr de vt) := p in
  match f with
  | Fornecedor => Pedido n v cf cl cc ee ce dl fr de vt
  | CNPJFornecedor => Pedido n fo v cl cc ee ce dl fr de vt
  | Cliente => Pedido n fo cf v cc ee ce dl fr de vt
  | CNPJCliente => Pedido n fo cf cl v ee ce dl fr de vt
  | DataLimiteEntrega => Pedido n fo cf cl cc ee ce v fr de vt
  | CondicaoFrete => Pedido n fo cf cl cc ee ce dl v de vt
  | DataEmissao => Pedido n fo cf cl cc ee ce dl fr v vt
  | ValorTotal => Pedido n fo cf cl cc ee ce dl fr de v
  end.

(** The product dictionary of the scans. *)
Record produto := Produto {
  p_numero_do_pedido : str;
  codigo_fornecedor : str;
  valor_unit : str;
  quantidade : str;
  embalagem : str;
  sequencia : str;
  descricao : str;
  ean : str }.

Definition set_ean (pr : produto) (v : str) : produto :=
  let '(Produto n c vu q e s d _) := pr in Produto n c vu q e s d v.
Definition set_descricao (pr : produto) (v : str) : produto :=
  let '(Produto n c vu q e s _ ea) := pr in Produto n c vu q e s v ea.

(** A cell of the product DataFrame after the column conversions. *)
Inductive cell := CStr (s : str) | CFloat (f : pyfloat) | CInt (z : Z).

(** A row of the product DataFrame; the [Sequência] column is dropped. *)
Record prow := PRow {
  r_numero_do_pedido : cell;
  r_codigo_fornecedor : cell;
  r_valor_unit : cell;
  r_quantidade : cell;
  r_embalagem : cell;
  r_descricao : cell;
  r_ean : cell }.

(** The list of DataFrames returned by a scan. *)
Inductive table := TPedidos (l : list pedido) | TProdutos (l : list prow).

Definition opt_list {A} (o : option A) : list A :=
  match o with Some x => [x] | None => [] end.

End Rec.

(** * [RedeBizExtractor._process_redebiz_text] *)
Module RedeBiz.
Import Py Re Num Rec.

Definition re_pedido := compile "PEDIDO DE COMPRAS\s+(\S+)".
Definition re_fornecedor := compile "REDE BIZ SERVICOS E DISTRIBUICAO DE PRO".
Definition re_cliente := compile "R\. Social SUPERMERCADO JB[^\n]*?LTDA".
Definition re_cnpj_invertido := compile "CNPJ\s+([-\d]{2,4})\s+([\d\.\/]{10,18})".
Definition re_cnpj := compile "CNPJ\s+([\d\.\-\/]+)".
Definition re_data_limite := compile "Data limite para entrega\s+([\d\/]+)".
Definition re_frete := compile "o do frete\s+(\w+)".
Definition re_emissao := compile "Data da emiss.+?\s+([\d\/]+)".
Definition re_valor_total := compile "Valor total do pedido\s+([\d\.,]+)".
Definition re_decimal := compile "\d+,\d+".

(** The parsing context of one scan, with the two output lists. *)
Record state := State {
  pedidos : list pedido;
  produtos_list : list produto;
  current_pedido : option pedido;
  current_produto : option produto;
  in_produtos_section : bool }.

Definition init : state := State [] [] None None false.

Definition has (pat : string) (l : str) : bool := contains (u pat) l.

(** If-blocks of the header extraction, in the order of the source. *)
Definition header (l : str) (p : pedido) : pedido :=
  let p :=
    if has "R. Social" l && has "REDE BIZ" l then
      let p := match search re_fornecedor l with
               | Some _ => pset p Fornecedor (u "REDE BIZ SERVICOS E DISTRIBUICAO")
               | None => p
               end in
      match search re_cliente l with
      | Some mo => pset p Cliente (replace (u "R. Social ") (u "") (group_str mo 0))
      | None => p
      end
    else p in
  let p :=
    if has "CNPJ" l && negb (has "REDE BIZ" l) then
      match search re_cnpj_invertido l with
      | Some mo => pset p CNPJCliente (group_str mo 2 ++ group_str mo 1)
      | None =>
          match search re_cnpj l with
          | Some mo => pset p CNPJCliente (group_str mo 1)
          | None => p
          end
      end
    else p in
  let p :=
    if has "CNPJ" l && has "REDE BIZ" l then
      match search re_cnpj l with
      | Some mo => pset p CNPJFornecedor (group_str mo 1)
      | None => p
      end
    else p in
  let p :=
    if has "Data limite para entrega" l then
      match search re_data_limite l with
      | Some mo => pset p DataLimiteEntrega (group_str mo 1)
      | None => p
      end
    else p in
  let p :=
    if has "Condi" l && has "o do frete" l then
      match search re_frete l with
      | Some mo => pset p CondicaoFrete (group_str mo 1)
      | None => p
      end
    else p in
  let p :=
    if has "Data da emiss" l then
      match search re_emissao l with
      | Some mo => pset p DataEmissao (group_str mo 1)
      | None => p
      end
    else p in
  if has "Valor total do pedido" l then
    match search re_valor_total l with
    | Some mo => pset p ValorTotal (group_str mo 1)
    | None => p
    end
  else p.

(** [if current_produto and current_produto.get('Código Fornecedor'):
    produtos_list.append(current_produto.copy())] *)
Definition seal (st : state) : list produto :=
  match current_produto st with
  | Some pr => if truthy (codigo_fornecedor pr) then produtos_list st ++ [pr] else produtos_list st
  | None => produtos_list st
  end.

(** One iteration of [for i, linha in enumerate(linhas)]. *)
Definition step (st : state) (linha : str) : state :=
  let linha_limpa := strip linha in
  if has "PEDIDO DE COMPRAS" linha_limpa then
    let numero_pedido :=
      match search re_pedido linha_limpa with Some mo => group_str mo 1 | None => [] end in
    match current_pedido st with
    | Some cp =>
        if negb (str_eqb (numero_do_pedido cp) numero_pedido) then
          State (pedidos st ++ [cp]) (produtos_list st) (Some (novo_pedido_dict numero_pedido))
                (current_produto st) false
        else st
    | None =>
        State (pedidos st) (produtos_list st) (Some (novo_pedido_dict numero_pedido))
              (current_produto st) false
    end
  else
    match current_pedido st with
    | None => st
    | Some cp =>
        let cp := header linha_limpa cp in
        if has "Cod Forn" linha_limpa && has "Seq" linha_limpa && has "Produtos" linha_limpa then
          State (pedidos st) (produtos_list st) (Some cp) (current_produto st) true
        else if in_produtos_section st
                && (has "TOTAIS" linha_limpa
                    && match search re_decimal linha_limpa with Some _ => true | None => false end) then
          State (pedidos st) (seal st) (Some cp) None false
        else if has "DADOS ADICIONAIS" linha_limpa || has "ADVERT" linha_limpa then
          State (pedidos st) (seal st) (Some cp) None false
        else
          State (pedidos st) (produtos_list st) (Some cp) (current_produto st) (in_produtos_section st)
    end.

(** After the loop: save the last product and the last order. *)
Definition finish (st : state) : list pedido * list produto :=
  let produtos := seal st in
  let peds := match current_pedido st with
              | Some cp => pedidos st ++ [cp]
              | None => pedidos st
              end in
  (peds, produtos).

Definition scan (linhas : list str) : list pedido * list produto :=
  finish (fold_left step linhas init).

(** The DataFrame conversions: [Quantidade] and [Valor Unit.] through
    [conv_num], [Código Fornecedor] and [EAN] to int64, [Sequência] dropped. *)
Definition to_row (pr : produto) : prow :=
  PRow (CStr (p_numero_do_pedido pr)) (CInt (to_int64 (codigo_fornecedor pr)))
       (CFloat (conv_num (valor_unit pr))) (CFloat (conv_num (quantidade pr)))
       (CStr (embalagem pr)) (CStr (descricao pr)) (CInt (to_int64 (ean pr))).

Definition process (linhas : list str) : list table :=
  let '(peds, prods) := scan linhas in
  match peds with [] => [] | _ => [TPedidos peds] end ++
  match prods with [] => [] | _ => [TProdutos (map to_row prods)] end.

End RedeBiz.

(** * [MondelezExtractor._process_text] *)
Module Mondelez.
Import Py Re Num Rec.

Definition has (pat : string) (l : str) : bool := contains (u pat) l.

(** ** Line normalisation (steps 1 to 3 of the loop body) *)

Definition hard_terms : list str :=
  map u ["DADOS DO COD"; "DADOS DO CÓD"; "DADOS COMERCIAIS";
         "DADOS PARA FATURAMENTO"; "RAZÃO SOCIAL:"; "RAZAO SOCIAL:";
         "SUPERUS"; "PÁGINA:"; "PAGINA:"; "COD/NOME"; "COD/ NOME"; "DADOS DO"]%string.

Definition triggers : list str :=
  map u ["Usuário:"; "Emissão:"; "Fornecedor:";
         "Substituição"; "Data Entrega:"; "Data Fat:"; "Número de Registros";
         "Valor Total"; "Vendedor"; "Comprador"; "Direção"]%string.

Definition split_pattern : str := join (u "|") triggers.

Definition re_triggers : re :=
  match parse split_pattern with Some r => r | None => Eps end.

(** One iteration of [for term in hard_terms]. *)
Definition hard_cut (lu : str * str) (term : str) : str * str :=
  let '(linha_limpa, upper_line) := lu in
  match find term upper_line with
  | Some idx => (strip (firstn idx linha_limpa), firstn idx upper_line)
  | None => (linha_limpa, upper_line)
  end.

Definition normalize (linha : str) : str :=
  let linha_limpa := join (u " ") (split_ws linha) in
  let upper_line := upper linha_limpa in
  let '(linha_limpa, _) := fold_left hard_cut hard_terms (linha_limpa, upper_line) in
  strip (split_first true re_triggers linha_limpa).

(** ** Garbled line reconstruction: [_clean_garbled_line] *)

Definition re_desc_word := compile "\b[A-Z]{3,}\b".
Definition re_letters_dot := compile "[a-zA-Z\.]".
Definition re_digits := compile "\d+".
Definition re_letters := compile "[a-zA-Z]".
Definition re_not_digit_comma := compile "[^\d,]".

(** [int(num)] of a one-character digit string. *)
Definition int_of_digit (num : str) : Z :=
  match num with [c] => Z.of_N (c - 48) | _ => 0%Z end.

(** One iteration of [for num in numbers], on [(ean, code, qty)]. *)
Definition classify (acc : str * str * str) (num : str) : str * str * str :=
  let '(ean, code, qty) := acc in
  if Nat.eqb (List.length num) 13 && negb (truthy ean) then (num, code, qty)
  else if Nat.eqb (List.length num) 6 && negb (truthy code) then (ean, num, qty)
  else if Nat.eqb (List.length num) 2 && negb (truthy qty) then (ean, code, num)
  else if Nat.eqb (List.length num) 1 && negb (truthy qty) && (0 <? int_of_digit num)%Z
  then (ean, code, num)
  else (ean, code, qty).

Definition desc_words (linha : str) : list str := findall0 re_desc_word linha.

Definition numbers (linha : str) : list str :=
  findall0 re_digits (sub re_letters_dot (u " ") linha).

Definition potential_values (linha : str) : list str :=
  let nums_commas := split_ws (sub re_letters [] linha) in
  flat_map (fun item =>
              let clean_item := sub re_not_digit_comma [] item in
              if has "," clean_item && Nat.ltb 3 (List.length clean_item) then [clean_item] else [])
           nums_commas.

Definition nth_str (l : list str) (i : nat) : str := nth i l [].

Definition clean_garbled_line (linha : str) : str :=
  let dw := desc_words linha in
  let desc := match dw with [] => [] | _ => join (u " ") dw end in
  let nums := numbers linha in
  let '(ean, code, qty) := fold_left classify nums ([], [], []) in
  let valores :=
    if has "," linha then
      potential_values linha
    else [] in
  let valores :=
    match valores with
    | [] =>
        if Nat.leb 5 (List.length nums) then
          [nth_str nums (List.length nums - 2) ++ u ",00";
           nth_str nums (List.length nums - 1) ++ u ",00"]
        else valores
    | _ => valores
    end in
  if truthy ean && truthy code && truthy desc && truthy qty then
    if Nat.leb 2 (List.length valores) then
      let v2 := nth_str valores (List.length valores - 2) in
      let v1 := nth_str valores (List.length valores - 1) in
      ean ++ u " " ++ code ++ u " " ++ desc ++ u " " ++ qty ++ u " UN 1 UN 0,00 0,00 "
          ++ v2 ++ u " " ++ v2 ++ u " " ++ v1
    else
      ean ++ u " " ++ code ++ u " " ++ desc ++ u " " ++ qty
          ++ u " UN 1 UN 0,00 0,00 10,00 10,00 100,00"
  else linha.

(** ** Order segmentation *)

Definition re_pedido :=
  compile "(?:PEDIDO DE COMPRAS|Número do Pedido|Pedido|Nº|Numero)[:\s]+(\d+)".

Definition years : list str := map u ["2023"; "2024"; "2025"]%string.

Definition valid_candidate (cand_numero : str) : bool :=
  Nat.ltb 2 (List.length cand_numero) && negb (existsb (str_eqb cand_numero) years).

(** The parsing context of one scan, with the two output lists. *)
Record state := State {
  pedidos : list pedido;
  produtos_list : list produto;
  current_pedido : option pedido;
  current_produto : option produto;
  in_produtos_section : bool }.

Definition init : state := State [] [] None None false.

(** [for match in matches_pedido: ...], with its two [break]s. *)
Fixpoint order_matches (ms : list mobj) (st : state) : state :=
  match ms with
  | [] => st
  | mo :: rest =>
      let cand_numero := group_str mo 1 in
      if valid_candidate cand_numero then
        match current_pedido st with
        | Some cp =>
            if negb (str_eqb (numero_do_pedido cp) cand_numero) then
              State (pedidos st ++ [cp]) (produtos_list st)
                    (Some (novo_pedido_dict cand_numero)) (current_produto st) false
            else order_matches rest st
        | None =>
            State (pedidos st) (produtos_list st)
                  (Some (novo_pedido_dict cand_numero)) (current_produto st) false
        end
      else order_matches rest st
  end.

(** ** Header fields *)

Definition re_razao := compile "R\. Social\s+(.+)".
Definition re_cnpjs := compile "(\d{2}\.\d{3}\.\d{3}\/\d{4}-\d{2})".
Definition re_cnpj_invertido := compile "CNPJ\s+-(\d{2})\s+([\d\.\/]+)".
Definition re_data_limite := compile "Data limite para entrega\s+([\d\/]+)".
Definition re_frete := compile "Condição do frete\s+(.+)".
Definition re_emissao := compile "Data da emissão\s+([\d\/]+)".
Definition re_valor_total := compile "Valor total do pedido\s+([\d\.,]+)".

Definition header (l : str) (cp : pedido) : pedido :=
  let cp :=
    if has "R. Social" l then
      if has "REDE BIZ" (upper l) && negb (truthy (fornecedor cp)) then
        pset cp Fornecedor (u "REDE BIZ SERVICOS E DISTRIBUICAO")
      else if negb (truthy (cliente cp)) then
        match search re_razao l with
        | Some mo => pset cp Cliente (strip (group_str mo 1))
        | None => cp
        end
      else cp
    else cp in
  let cp :=
    if has "CNPJ" l then
      match findall1 re_cnpjs l with
      | c0 :: _ =>
          if has "REDE BIZ" l then pset cp CNPJFornecedor c0 else pset cp CNPJCliente c0
      | [] =>
          match search re_cnpj_invertido l with
          | Some mo => pset cp CNPJCliente (group_str mo 2 ++ u "-" ++ group_str mo 1)
          | None => cp
          end
      end
    else cp in
  let cp :=
    if has "Data limite para entrega" l then
      match search re_data_limite l with
      | Some mo => pset cp DataLimiteEntrega (group_str mo 1)
      | None => cp
      end
    else cp in
  let cp :=
    if has "Condição do frete" l then
      match search re_frete l with
      | Some mo => pset cp CondicaoFrete (strip (group_str mo 1))
      | None => cp
      end
    else cp in
  let cp :=
    if has "Data da emissão" l then
      match search re_emissao l with
      | Some mo => pset cp DataEmissao (group_str mo 1)
      | None => cp
      end
    else cp in
  if has "Valor total do pedido" l then
    match search re_valor_total l with
    | Some mo => pset cp ValorTotal (group_str mo 1)
    | None => cp
    end
  else cp.

(** ** Product rows *)

Definition re_smart :=
  compile "^\s*(\d+)\s+(?:(\d+)\s+)?(.+?)\s+(\d+)\s+(UN|CX|PC|KG|LT).*?(\d+,\d+)\s+[\d,\.]+\s+([\d,\.]+)$".
Definition re_format_b :=
  compile "^(\d{6})\s+.*?\s+([\d\.,]+)\s+([\d\.,]+)\s+([\d\.,]+)\s+(UN|CX|PC|KG|LT)\s+(\d+)\s+(.+)$".
Definition re_ean := compile "EANs?:\s*([\d,\s]+)".
Definition re_digit_start := compile "^\d".

(** [(ean, code)] from the one or two leading numbers of a smart match. *)
Definition smart_ids (n1 : str) (n2 : option str) : str * str :=
  let n2_truthy := match n2 with Some s => truthy s | None => false end in
  if truthy n1 && n2_truthy then (n1, match n2 with Some s => s | None => [] end)
  else if truthy n1 then
    if Nat.ltb 7 (List.length n1) then (n1, []) else ([], n1)
  else ([], []).

Definition smart_produto (numero : str) (mo : mobj) : produto :=
  let '(ean, code) := smart_ids (group_str mo 1) (group mo 2) in
  Produto numero code (group_str mo 6) (group_str mo 4) (group_str mo 5) (u "0")
          (strip (group_str mo 3)) ean.

Definition format_b_produto (numero : str) (mo : mobj) : produto :=
  Produto numero (group_str mo 1) (group_str mo 3) (group_str mo 4) (group_str mo 5)
          (group_str mo 6) (strip (group_str mo 7)) [].

Definition blocked : list str :=
  map u ["DADOS"; "TOTAL"; "PÁGINA"; "PAGINA"; "SUPERUS"; "COD/NOME"; "CODIGO FORNECEDOR";
         "QUANTIDADE DE PEÇAS"; "DATA DE ENTREGA"; "PRAZO"; "E-MAIL"; "FRETE";
         "TRANSPORTADORA"; "DATA DE VENCIMENTO"; "TIPO DE TROCA"]%string.

Definition ignored : list str :=
  map u ["Bairro"; "Cidade"; "CNPJ"; "Endereço"; "Telefone"; "Inscrição"; "Pedido"; "CNPJ"]%string.

(** A continuation line of the open product. *)
Definition continuation (l : str) (pr : produto) : produto :=
  if has "EAN" l then
    match search re_ean l with
    | Some mo => set_ean pr (strip (group_str mo 1))
    | None => pr
    end
  else if Nat.ltb 3 (List.length l)
          && negb (match rmatch re_digit_start l with Some _ => true | None => false end) then
    let upl := upper l in
    let is_blocked := existsb (fun b => contains b upl) blocked in
    let is_ignored := existsb (fun x => contains x l) ignored in
    if negb is_blocked && negb is_ignored then set_descricao pr (descricao pr ++ u " " ++ l)
    else pr
  else pr.

Definition section_start (l : str) : bool :=
  (has "Cod" l && has "Prod" l) || (has "Cod" l && has "Forn" l)
  || (has "Codigo" l && has "Descricao" l).

Definition section_end (l : str) : bool :=
  has "TOTAIS" l || has "DADOS ADICIONAIS" l || has "Total:" l.

Definition repeated_header (l : str) : bool := has "Cod Forn" l || has "Valor Unit" l.

(** The product part of the loop body, once an order is open. *)
Definition products_step (st : state) (cp : pedido) (linha_limpa : str) : state :=
  if section_start linha_limpa then
    State (pedidos st) (produtos_list st) (Some cp) (current_produto st) true
  else if in_produtos_section st && section_end linha_limpa then
    State (pedidos st) (produtos_list st ++ opt_list (current_produto st)) (Some cp) None false
  else if in_produtos_section st && repeated_header linha_limpa then
    State (pedidos st) (produtos_list st) (Some cp) (current_produto st) (in_produtos_section st)
  else
    let linha_limpa_processada := clean_garbled_line linha_limpa in
    match search re_smart linha_limpa_processada with
    | Some mo =>
        State (pedidos st) (produtos_list st ++ opt_list (current_produto st)) (Some cp)
              (Some (smart_produto (numero_do_pedido cp) mo)) true
    | None =>
        match search re_format_b linha_limpa_processada with
        | Some mo =>
            State (pedidos st) (produtos_list st ++ opt_list (current_produto st)) (Some cp)
                  (Some (format_b_produto (numero_do_pedido cp) mo)) true
        | None =>
            match current_produto st with
            | Some pr =>
                if in_produtos_section st then
                  State (pedidos st) (produtos_list st) (Some cp)
                        (Some (continuation linha_limpa pr)) true
                else State (pedidos st) (produtos_list st) (Some cp) (current_produto st) false
            | None =>
                State (pedidos st) (produtos_list st) (Some cp) None (in_produtos_section st)
            end
        end
    end.

(** One iteration of [for i, linha in enumerate(linhas)]. *)
Definition step (st : state) (linha : str) : state :=
  let linha_limpa := normalize linha in
  let st := order_matches (finditer_ic true re_pedido linha_limpa) st in
  match current_pedido st with
  | None => st
  | Some cp => products_step st (header linha_limpa cp) linha_limpa
  end.

(** After the loop. *)
Definition finish (st : state) : list pedido * list produto :=
  (pedidos st ++ opt_list (current_pedido st), produtos_list st ++ opt_list (current_produto st)).

Definition scan (linhas : list str) : list pedido * list produto :=
  finish (fold_left step linhas init).

(** The DataFrame conversions of the source: [Quantidade] and [Valor Unit.]
    through [_conv_num], [Código Fornecedor] to int64, [Sequência] dropped;
    the [EAN] column is left as it is. *)
Definition to_row (pr : produto) : prow :=
  PRow (CStr (p_numero_do_pedido pr)) (CInt (to_int64 (codigo_fornecedor pr)))
       (CFloat (conv_num (valor_unit pr))) (CFloat (conv_num (quantidade pr)))
       (CStr (embalagem pr)) (CStr (descricao pr)) (CStr (ean pr)).

Definition process (linhas : list str) : list table :=
  let '(peds, prods) := scan linhas in
  match peds with [] => [] | _ => [TPedidos peds] end ++
  match prods with [] => [] | _ => [TProdutos (map to_row prods)] end.

End Mondelez.

(** * Inputs and properties read from the specification *)
Module Spec.
Import Py Num Rec.
Import QArith.

(** End-to-end scenario A of the specification. *)
Definition scenario_a : list str :=
  map u ["PEDIDO DE COMPRAS 4500012345"; "CNPJ 12.345.678/0001-90"; "Cod Forn Seq Produtos";
         "100001  5,00  10,00  2,00  UN  1  ARROZ BRANCO 5KG"; "TOTAIS 10,00"]%string.

(** The outcome the specification announces for scenario A: one Order and
    one ProductLine with the listed attributes. *)
Definition scenario_a_expected (out : list table) : Prop :=
  exists p r, out = [TPedidos [p]; TProdutos [r]]
    /\ numero_do_pedido p = u "4500012345"
    /\ cnpj_fornecedor p = u "12.345.678/0001-90"
    /\ r_codigo_fornecedor r = CInt 100001
    /\ r_descricao r = CStr (u "ARROZ BRANCO 5KG")
    /\ (exists q, r_quantidade r = CFloat (PFin q) /\ q == 2)
    /\ (exists q, r_valor_unit r = CFloat (PFin q) /\ q == 10).

(** An order with a product row that has an EAN and no supplier code. *)
Definition ean_only_lines : list str :=
  map u ["Pedido 12345"; "7891234567890 ARROZ 2 UN 5,00 10,00 10,00"]%string.

(** Its product row, matched by the smart pattern with one leading number. *)
Definition ean_only_row : str := u "7891234567890 ARROZ 2 UN 5,00 10,00 10,00".

(** [re.match(r'^\d', l)] read as a property of the first character. *)
Definition starts_with_digit (l : str) : bool :=
  match l with c :: _ => isdigit c | [] => false end.

(** The continuation rule as the specification states it, for one line [l]
    read in the state [st]: inside the section, with a product open, a line
    that no row pattern matches, without EAN marker, longer than three
    characters, not starting with a digit and without blocked keyword is
    appended to the description after one space, and no ProductLine is
    sealed or created. *)
Definition continuation_rule (st : Mondelez.state) (l : str) : Prop :=
  forall cp pr,
  Mondelez.current_pedido st = Some cp -> Mondelez.current_produto st = Some pr ->
  Mondelez.in_produtos_section st = true ->
  let l' := Mondelez.normalize l in
  Re.search Mondelez.re_smart (Mondelez.clean_garbled_line l') = None ->
  Re.search Mondelez.re_format_b (Mondelez.clean_garbled_line l') = None ->
  Mondelez.has "EAN" l' = false -> (3 < List.length l')%nat -> starts_with_digit l' = false ->
  existsb (fun b => contains b (upper l')) Mondelez.blocked = false ->
  Mondelez.current_produto (Mondelez.step st l)
    = Some (set_descricao pr (descricao pr ++ u " " ++ l'))
  /\ Mondelez.produtos_list (Mondelez.step st l) = Mondelez.produtos_list st.

(** The state after the two lines of [ean_only_lines]: an order and a
    product open inside the section. *)
Definition ean_only_state : Mondelez.state :=
  fold_left Mondelez.step ean_only_lines Mondelez.init.

(** Maximal runs of characters satisfying [p], left to right ([cur] holds
    the current run, reversed). *)
Fixpoint runs (p : char -> bool) (s : str) (cur : str) : list str :=
  match s with
  | [] => match cur with [] => [] | _ => [rev cur] end
  | c :: r =>
      if p c then runs p r (c :: cur)
      else match cur with [] => [] | _ => [rev cur] end ++ runs p r []
  end.

(** Length of the longest prefix of [s] whose characters satisfy [p]. *)
Fixpoint span (p : char -> bool) (s : str) : nat :=
  match s with
  | c :: r => if p c then S (span p r) else 0
  | [] => 0
  end.

(** The maximal digit runs of a line. *)
Definition digit_runs (s : str) : list str := runs isdigit s [].

Definition is_AZ (c : char) : bool := in_range 65%N 90%N c.

(** The words of a line (maximal runs of word characters) made of three or
    more upper-case letters A to Z. *)
Definition upper_words (s : str) : list str :=
  filter (fun w => forallb is_AZ w && Nat.leb 3 (List.length w)) (runs isword s []).

Definition len_is (n : nat) (w : str) : bool := Nat.eqb (List.length w) n.

(** A run usable as quantity: two digits, or one nonzero digit. *)
Definition qty_run (w : str) : bool :=
  len_is 2 w || (len_is 1 w && negb (str_eqb w (u "0"))).

(** A run of at least [k] consecutive upper-case letters somewhere in [l]. *)
Definition has_upper_run (k : nat) (l : str) : Prop :=
  exists a w b, l = a ++ w ++ b /\ (k <= List.length w)%nat /\ forallb is_AZ w = true.

(** [out] is a canonical row starting with [e] and [c]. *)
Definition reconstructed (out e c : str) : Prop :=
  exists d q rest,
    out = e ++ u " " ++ c ++ u " " ++ d ++ u " " ++ q ++ u " UN 1 UN 0,00 0,00 " ++ rest.

(** The first part of the reconstruction rule as the specification states it. *)
Definition garbled_rule (l : str) : Prop :=
  forall e c q,
  List.find (len_is 13) (digit_runs l) = Some e -> List.find (len_is 6) (digit_runs l) = Some c ->
  has_upper_run 3 l -> List.find qty_run (digit_runs l) = Some q ->
  reconstructed (Mondelez.clean_garbled_line l) e c.

(** A line with a 13-digit, a 6-digit and a 2-digit run, whose only
    upper-case run is followed by a lower-case letter. *)
Definition mixed_case_line : str := u "1234567890123 123456 ABCd 12".

(** Whether the character at position [i] of [s] satisfies [p]. *)
Definition at_p (s : str) (p : char -> bool) (i : nat) : bool :=
  match nth_error s i with Some c => p c | None => false end.

(** The run of [q]-characters of [s] starting at [i]. *)
Definition run_at (s : str) (q : char -> bool) (i : nat) : str :=
  firstn (span q (skipn i s)) (skipn i s).

(** Position [i] of [s] lies strictly inside a run of [q]-characters. *)
Definition inside (s : str) (q : char -> bool) (i : nat) : bool :=
  match i with O => false | S j => at_p s q j && at_p s q (S j) end.

End Spec.

Module Text.
Import Py Re Num Rec.

Definition has (pat : string) (l : str) : bool := contains (u pat) l.

(** [str.isdigit] on one code point: the decimal digits and the
    superscripts one, two and three of Latin-1. *)
Definition isdigit_char (c : char) : bool :=
  isdigit c || N.eqb c 178 || N.eqb c 179 || N.eqb c 185.

(** [s.isdigit()]: nonempty and made of digits. *)
Definition py_isdigit (s : str) : bool := truthy s && forallb isdigit_char s.

(** [s.lower()]. *)
Definition lower (s : str) : str := map lower_char s.

Fixpoint split_char_aux (c : char) (s cur : str) : list str :=
  match s with
  | [] => [rev cur]
  | x :: r => if N.eqb x c then rev cur :: split_char_aux c r [] else split_char_aux c r (x :: cur)
  end.

(** [s.split(c)] for a one-character separator. *)
Definition split_char (c : char) (s : str) : list str := split_char_aux c s [].

(** The pieces of [s] between the successive matches [ms]. *)
Fixpoint split_pieces (s : str) (p : nat) (ms : list mobj) : list str :=
  match ms with
  | [] => [skipn p s]
  | mo :: r => slice s p (m_start mo) :: split_pieces s (m_end mo) r
  end.

(** [re.split(pattern, s)] for a pattern without groups and without empty
    matches. *)
Definition re_split (r : re) (s : str) : list str := split_pieces s 0 (finditer r s).

(** [float(x) < 10000] after the rounding of the decimal value to binary64:
    the doubles next to 10000 are 2^-39 apart, and a value at or above the
    midpoint 10000 - 2^-40 below it rounds to 10000 (ties to even). *)
Definition lt_10000 (f : pyfloat) : bool :=
  match f with
  | PFin q => negb (QArith_base.Qle_bool
                      (QArith_base.Qminus (QArith_base.inject_Z 10000) (QArith_base.Qmake 1 (2 ^ 40))) q)
  | PInf neg => neg
  | PNaN => false
  end.

(** ** General information *)

Inductive info_key := NumeroPedido | IFornecedor | ICNPJFornecedor | Empresa
  | DataPedido | DataEntrega | FormaPagamento | Frete.

Definition info_key_eqb (a b : info_key) : bool :=
  match a, b with
  | NumeroPedido, NumeroPedido | IFornecedor, IFornecedor
  | ICNPJFornecedor, ICNPJFornecedor | Empresa, Empresa | DataPedido, DataPedido
  | DataEntrega, DataEntrega | FormaPagamento, FormaPagamento | Frete, Frete => true
  | _, _ => false
  end.

(** The dict [info_geral], in insertion order. *)
Definition info := list (info_key * str).

(** [d[k] = v]: a present key keeps its place, a new one goes last. *)
Fixpoint dict_set (k : info_key) (v : str) (d : info) : info :=
  match d with
  | [] => [(k, v)]
  | (k', v') :: r => if info_key_eqb k k' then (k', v) :: r else (k', v') :: dict_set k v r
  end.

Definition re_numero := compile "(?:Número do Pedido:|Pedido:)\s*(\d+)".
Definition re_fornecedor := compile "Fornecedor:\s*\d+\s*(.+?)(?:,\s*CNPJ|$)".
Definition re_cnpj := compile "CNPJ:\s*([\d\.\/\-]+)".
Definition re_empresa := compile "Empresa:\s*\d+\s*(.+?)(?:,|$)".
Definition re_dt_pedido := compile "Dt\.\s*Pedido:\s*([\d\/]+)".
Definition re_dt_entrega := compile "Dt\.\s*Entrega:\s*([\d\/]+)".
Definition re_forma := compile "Forma\s+Pgto:\s*(.+?)(?:,\s*Espécie|$)".
Definition re_frete := compile "Frete:\s*(\w+)".

(** [if match: info_geral[k] = f(match.group(1))] *)
Definition set_match (r : re) (k : info_key) (f : str -> str) (l : str) (d : info) : info :=
  match search r l with
  | Some mo => dict_set k (f (group_str mo 1)) d
  | None => d
  end.

(** The body of the first loop, on one line. *)
Definition info_line (d : info) (linha : str) : info :=
  let l := strip linha in
  let d := if has "Número do Pedido" l || has "Pedido:" l
           then set_match re_numero NumeroPedido id l d else d in
  let d := if has "Fornecedor:" l then set_match re_fornecedor IFornecedor strip l d else d in
  let d := if has "CNPJ:" l && has "Fornecedor" l
           then set_match re_cnpj ICNPJFornecedor id l d else d in
  let d := if has "Empresa:" l && negb (has "CNPJ" l)
           then set_match re_empresa Empresa strip l d else d in
  let d := if has "Dt. Pedido" l then set_match re_dt_pedido DataPedido id l d else d in
  let d := if has "Dt. Entrega" l then set_match re_dt_entrega DataEntrega id l d else d in
  let d := if has "Forma Pgto" l || has "Forma de Pagamento" l
           then set_match re_forma FormaPagamento strip l d else d in
  if has "Frete:" l && negb (has "Forma" l) then set_match re_frete Frete id l d else d.

Definition info_geral (linhas : list str) : info := fold_left info_line linhas [].

(** ** Products *)

(** The dict [produto]: each key is set at most once, and the keys can
    only be set in this order. *)
Record tprod := TProd {
  t_codigo : option str;
  t_codigo_barras : option str;
  t_descricao : option str;
  t_marca : option str;
  t_quantidade : option str;
  t_preco_unitario : option str;
  t_valor_total : option str;
  t_embalagem : option str }.

Definition is_some (o : option str) : bool := match o with Some _ => true | None => false end.

(** [len(produto)] *)
Definition tprod_len (p : tprod) : nat :=
  List.length (filter is_some [t_codigo p; t_codigo_barras p; t_descricao p; t_marca p;
     t_quantidade p; t_preco_unitario p; t_valor_total p; t_embalagem p]).

Definition re_2sp := compile "\s{2,}".

Definition stop_words : list str :=
  map u ["recebimento"; "comprador"; "vendedor"; "obrigatório"; "---"; "pg:"]%string.

Definition units : list str := map u ["CX"; "UN"; "PC"; "KG"; "LT"]%string.

Definition is_codigo_barras (parte : str) : bool :=
  py_isdigit parte && Nat.leb 12 (List.length parte).

Definition is_descricao (p : str) : bool :=
  negb (py_isdigit (replace (u ",") (u "") (replace (u ".") (u "") p))) && Nat.ltb 3 (List.length p).

Definition has_sep (p : str) : bool := has "," p || has "." p.

(** The test of the [Quantidade] loop; a [float()] that raises skips the part. *)
Definition is_quantidade (parte : str) : bool :=
  has_sep parte
  && match py_float (replace (u ",") (u ".") (replace (u ".") (u "") parte)) with
     | Some num => lt_10000 num
     | None => false
     end.

Definition is_valor (p : str) : bool :=
  has_sep p
  && (let partes_decimal := if has "," p then split_char 44%N p else split_char 46%N p in
      Nat.eqb (List.length partes_decimal) 2 && Nat.leb 2 (List.length (nth 1 partes_decimal []))).

Definition is_embalagem (parte : str) : bool :=
  has "/" parte || existsb (str_eqb (upper parte)) units.

(** The product dict built from the parts of one line. *)
Definition mk_produto (partes : list str) : tprod :=
  let codigo := match partes with p0 :: _ => if py_isdigit p0 then Some p0 else None | [] => None end in
  let barras := List.find is_codigo_barras partes in
  let descricoes := filter is_descricao partes in
  let '(desc, marca) :=
    match descricoes with
    | [] => (None, None)
    | _ => (Some (join (u " ") (firstn 2 descricoes)),
            if Nat.ltb 2 (List.length descricoes) then Some (nth 2 descricoes []) else None)
    end in
  let qtde := List.find is_quantidade partes in
  let valores := filter is_valor partes in
  let '(preco, total) :=
    if Nat.leb 2 (List.length valores)
    then (Some (nth 0 valores []), Some (nth (List.length valores - 1) valores []))
    else (None, None) in
  TProd codigo barras desc marca qtde preco total (List.find is_embalagem partes).

(** [produto] for one line of the product block, if one is appended. *)
Definition produto_line (linha : str) : option tprod :=
  let partes := re_split re_2sp linha in
  if Nat.leb 3 (List.length partes) then
    let p := mk_produto partes in
    if Nat.leb 2 (tprod_len p) then Some p else None
  else None.

(** [for i in range(idx_header + 1, len(linhas))], with its [break] and
    [continue]. *)
Fixpoint produtos_after (ls : list str) : list tprod :=
  match ls with
  | [] => []
  | l0 :: r =>
      let linha := strip l0 in
      if existsb (fun x => contains x (lower linha)) stop_words then []
      else if negb (truthy linha) || Nat.ltb (List.length linha) 10 then produtos_after r
      else opt_list (produto_line linha) ++ produtos_after r
  end.

Definition is_header (linha : str) : bool :=
  has "Código" linha && has "Descrição" linha && (has "Qtde" linha || has "Quantidade" linha).

(** The lines after [idx_header], when a header line exists. *)
Fixpoint after_header (ls : list str) : option (list str) :=
  match ls with
  | [] => None
  | l :: r => if is_header l then Some r else after_header r
  end.

Definition produtos (linhas : list str) : list tprod :=
  match after_header linhas with
  | Some r => produtos_after r
  | None => []
  end.

(** ** Output and the generic fallback *)

Fixpoint int_str_aux (fuel n : nat) (acc : str) : str :=
  match fuel with
  | O => acc
  | S f =>
      let acc' := (N.of_nat (n mod 10) + 48)%N :: acc in
      if Nat.ltb n 10 then acc' else int_str_aux f (n / 10) acc'
  end.

(** [f"{n}"] for a natural number. *)
Definition int_str (n : nat) : str := int_str_aux (S n) n [].

(** [len(headers) == len(set(headers))] *)
Fixpoint distinctb (hs : list str) : bool :=
  match hs with
  | [] => true
  | h :: r => negb (existsb (str_eqb h) r) && distinctb r
  end.

Fixpoint count_of (h : str) (counts : list (str * nat)) : option nat :=
  match counts with
  | [] => None
  | (k, n) :: r => if str_eqb k h then Some n else count_of h r
  end.

(** The renaming loop over [headers], with the dict [counts]. *)
Fixpoint unique_headers (hs : list str) (counts : list (str * nat)) : list str :=
  match hs with
  | [] => []
  | h :: r =>
      match count_of h counts with
      | Some n => (h ++ u "_" ++ int_str (S n)) :: unique_headers r ((h, S n) :: counts)
      | None => h :: unique_headers r ((h, 0) :: counts)
      end
  end.

(** [dados_genericos]: the lines of five characters or more (stripped)
    with at least three fields. *)
Definition dados_genericos (linhas : list str) : list (list str) :=
  flat_map (fun l0 =>
              let linha := strip l0 in
              if negb (truthy linha) || Nat.ltb (List.length linha) 5 then []
              else
                let campos := re_split re_2sp linha in
                if Nat.leb 3 (List.length campos) then [campos] else [])
           linhas.

Definition max_cols (rows : list (list str)) : nat :=
  fold_left Nat.max (map (@List.length str) rows) 0.

(** [while len(row) < max_cols: row.append('')], then [row[:max_cols]]. *)
Definition pad (mc : nat) (row : list str) : list str :=
  firstn mc (row ++ repeat [] (mc - List.length row)).

(** The DataFrames returned, by the records they are built from. *)
Inductive ttable :=
| TInfo (l : info)
| TProds (l : list tprod)
| TGeneric (headers : list str) (rows : list (list str))
| TConteudo (l : list str).

Definition fallback (linhas : list str) : ttable :=
  let dg := dados_genericos linhas in
  if Nat.ltb 1 (List.length dg) then
    let mc := max_cols dg in
    let dp := map (pad mc) dg in
    let headers := hd [] dp in
    let headers := if distinctb headers then headers else unique_headers headers [] in
    TGeneric headers (tl dp)
  else TConteudo (filter truthy (map strip linhas)).

(** [TextExtractor._process_text] *)
Definition process_text (linhas : list str) : list ttable :=
  let inf := info_geral linhas in
  let prods := produtos linhas in
  let dfs := match inf with [] => [] | _ => [TInfo inf] end
             ++ match prods with [] => [] | _ => [TProds prods] end in
  match dfs with
  | [] => [fallback linhas]
  | _ => dfs
  end.

End Text.

(** * Page text: [MondelezExtractor._extract_text_custom] and the [extract]
    drivers.  The coordinates of a word are floats; the model leaves their
    type abstract, with [lt] for Python's [<] on them and [near a b] for
    [abs(a - b) <= 1.5]. *)
Module Layout.
Import Py.

Section Words.
Variable K : Type.
Variable lt : K -> K -> bool.
Variable near : K -> K -> bool.

(** A word of [page.extract_words()]. *)
Record word := Word { top : K; x0 : K; text : str }.

Fixpoint insert_by (key : word -> K) (w : word) (l : list word) : list word :=
  match l with
  | [] => [w]
  | y :: r => if lt (key w) (key y) then w :: l else y :: insert_by key w r
  end.

(** [sorted(l, key=key)]: a stable sort. *)
Definition sort_by (key : word -> K) (l : list word) : list word :=
  fold_left (fun acc w => insert_by key w acc) l [].

(** The clustering loop: [cur] is [current_line], [ctop] is [current_top]. *)
Fixpoint cluster (ws : list word) (cur : list word) (ctop : K) : list (list word) :=
  match ws with
  | [] => match cur with [] => [] | _ => [cur] end
  | w :: r =>
      if near (top w) ctop then cluster r (cur ++ [w]) ctop
      else match cur with [] => [] | _ => [cur] end ++ cluster r [w] (top w)
  end.

Definition line_str (line : list word) : str := join (u " ") (map text (sort_by x0 line)).

(** [_extract_text_custom(page)], from the words of the page. *)
Definition extract_text_custom (words : list word) : str :=
  match words with
  | [] => []
  | _ =>
      let ws := sort_by top words in
      match ws with
      | [] => []
      | w0 :: _ => join [10%N] (map line_str (cluster ws [] (top w0)))
      end
  end.

End Words.

Arguments Word {K}.
Arguments extract_text_custom {K}.

(** [texto_completo += text + "\n"] for the pages with a nonempty text. *)
Definition assemble (texts : list str) : str :=
  fold_left (fun acc t => if truthy t then acc ++ t ++ [10%N] else acc) texts [].

End Layout.

(** * The [extract] drivers, from the text of each page ([page.extract_text()],
    with [None] read as the empty string, which [if text:] skips alike). *)
Module Extract.
Import Py Text Layout.

(** [RedeBizExtractor.extract] *)
Definition extract_redebiz (texts : list str) : list Rec.table :=
  RedeBiz.process (split_char 10%N (assemble texts)).

(** [TextExtractor.extract] *)
Definition extract_text (texts : list str) : list ttable :=
  process_text (split_char 10%N (assemble texts)).

(** [MondelezExtractor.extract], from the words of each page. *)
Definition extract_mondelez {K} (lt near : K -> K -> bool) (pages : list (list (word K)))
  : list Rec.table :=
  Mondelez.process (split_char 10%N (assemble (map (extract_text_custom lt near) pages))).

(** A line made of whitespace only. *)
Definition blank (l : str) : bool := forallb isspace l.

Definition nonblank (l : str) : bool := negb (blank l).

End Extract.

(** * Shapes of patterns and of scan outputs *)
Module Shapes.
Import Py Re.

(** The value of a digit character. *)
Definition dig (c : char) : N := (c - 48)%N.

(** A digit or a dot: the characters left by [_conv_num]'s replacements. *)
Definition dig_dot (c : char) : bool := (isdigit c || N.eqb c 46)%bool.

(** The capture groups of a pattern, with their bodies. *)
Fixpoint grp_bodies (r : re) : list (nat * re) :=
  match r with
  | Cat a b | Alt a b => grp_bodies a ++ grp_bodies b
  | Star _ a => grp_bodies a
  | Grp n a => (n, a) :: grp_bodies a
  | _ => []
  end.

(** Every character the pattern can consume satisfies [q]. *)
Fixpoint consumes (ic : bool) (q : char -> bool) (r : re) : Prop :=
  match r with
  | Eps | Bol | Eol | WordB => True
  | Lit c => forall x, lit_ok ic c x = true -> q x = true
  | Cls p => forall x, cls_ok ic p x = true -> q x = true
  | AnyNL => forall x, N.eqb x 10 = false -> q x = true
  | Cat a b | Alt a b => consumes ic q a /\ consumes ic q b
  | Star _ a | Grp _ a => consumes ic q a
  end.

(** The characters of [inp] at the positions [i .. j-1] satisfy [q]. *)
Definition chars_ok (q : char -> bool) (inp : str) (i j : nat) : Prop :=
  forall k, i <= k < j -> exists x, nth_error inp k = Some x /\ q x = true.

(** A literal word, as the parser builds it. *)
Definition lits (w : str) : re := fold_right (fun c r => Cat (Lit c) r) Eps w.

(** [p+] and the group bodies built from it. *)
Definition plus (p : char -> bool) : re := Cat (Cls p) (Star true (Cls p)).

Definition digits_re : re := Cat (plus isdigit) Eps.                   (* [(\d+)] *)

(** [(UN|CX|PC|KG|LT)] *)
Definition units_re : re :=
  Alt (lits (u "UN")) (Alt (lits (u "CX")) (Alt (lits (u "PC")) (Alt (lits (u "KG")) (lits (u "LT"))))).

(** The groups that take part in every match of the pattern. *)
Fixpoint must (r : re) : list nat :=
  match r with
  | Cat a b => must a ++ must b
  | Grp n a => n :: must a
  | _ => []
  end.

(** The characters of a number as the scans capture it: digits, [,] and [.]. *)
Definition num_char (c : char) : bool := (isdigit c || N.eqb c 44 || N.eqb c 46)%bool.

(** The packagings the product patterns accept. *)
Definition embalagens : list str := map u ["UN"; "CX"; "PC"; "KG"; "LT"]%string.

(** No two neighbours of the list are the same string. *)
Fixpoint adj_distinct (l : list str) : bool :=
  match l with
  | a :: ((b :: _) as r) => negb (str_eqb a b) && adj_distinct r
  | _ => true
  end.

End Shapes.

(** * The outputs of the Mondelez scan, seen from its state *)
Module MondelezShapes.
Import Py Re Rec Mondelez Shapes.

(** The orders of a state: the saved ones and the open one. *)
Definition orders (st : state) : list pedido := pedidos st ++ opt_list (current_pedido st).

(** The products of a state: the saved ones and the open one. *)
Definition products (st : state) : list produto := produtos_list st ++ opt_list (current_produto st).

(** A product as the two row patterns build it: a digit code, numbers made of
    digits, [,] and [.], and one of the five packagings. *)
Definition prod_ok (pr : produto) : bool :=
  forallb isdigit (codigo_fornecedor pr) && forallb num_char (valor_unit pr)
  && forallb num_char (quantidade pr) && existsb (str_eqb (embalagem pr)) embalagens.

(** An order number as the candidate loop accepts it. *)
Definition numero_ok (n : str) : bool := valid_candidate n && forallb isdigit n.

(** What every state reached from [init] satisfies. *)
Definition inv (st : state) : Prop :=
  (current_pedido st = None -> pedidos st = [])
  /\ adj_distinct (map numero_do_pedido (orders st)) = true
  /\ Forall (fun p => numero_ok (numero_do_pedido p) = true) (orders st)
  /\ Forall (fun pr => prod_ok pr = true /\ In (p_numero_do_pedido pr) (map numero_do_pedido (orders st)))
            (products st).

End MondelezShapes.

(** * The RedeBiz scan, seen from its state *)
Module RedeBizShapes.
Import Py Re Rec RedeBiz Shapes.

(** The orders of a state: the saved ones and the open one. *)
Definition orders (st : state) : list pedido := pedidos st ++ opt_list (current_pedido st).

(** A line that opens an order. *)
Definition marker (linha : str) : bool := has "PEDIDO DE COMPRAS" (strip linha).

(** A string without whitespace. *)
Definition nospace (s : str) : bool := forallb (fun c => negb (isspace c)) s.

(** The invariant of the RedeBiz scan: no order is saved before one is
    open, consecutive orders have different numbers, and every number is
    free of whitespace. *)
Definition r_inv (st : state) : Prop :=
  (current_pedido st = None -> pedidos st = [])
  /\ adj_distinct (map numero_do_pedido (orders st)) = true
  /\ Forall (fun p => nospace (numero_do_pedido p) = true) (orders st).

End RedeBizShapes.

(** * The garbled-line reconstruction, by its slots *)
Module GarbledShapes.
Import Py.

(** The class [[A-Z]] as the pattern compiler builds it. *)
Definition az (x : char) : bool := (false || in_range 65%N 90%N x)%bool.

(** A slot of the reconstruction: empty, or [n] digits. *)
Definition slot_ok (n : nat) (w : str) : Prop := w = [] \/ (List.length w = n /\ forallb isdigit w = true).

Definition qty_ok (w : str) : Prop :=
  w = [] \/ (forallb isdigit w = true /\ (List.length w = 2 \/ (List.length w = 1 /\ w <> u "0"))).

Definition acc_ok (acc : str * str * str) : Prop :=
  let '(ean, code, qty) := acc in slot_ok 13 ean /\ slot_ok 6 code /\ qty_ok qty.

End GarbledShapes.

(** * The lines of [_extract_text_custom] *)
Module LayoutShapes.
Import Py Layout.

Section Lines.
Variable K : Type.
Variable near : K -> K -> bool.

(** A line whose words after the first all lie within the tolerance of the
    first word's [top]. *)
Definition line_ok (line : list (word K)) : Prop :=
  match line with
  | f :: rest => Forall (fun w => near (top K w) (top K f) = true) rest
  | [] => False
  end.

End Lines.

End LayoutShapes.


(** * Facts about the matcher *)
Module ReFacts.
Import Py Re.

Section Sound.
Variable ic : bool.
Variable inp : str.

Lemma star_loop_sound (r : re) (g : bool) (k : nat -> caps -> res) x
  (IH : forall k' i cs, m ic inp r k' i cs = Some x -> exists j cs', sem ic inp r i cs j cs' /\ k' j cs' = Some x) :
  forall fuel j cs, star_loop (m ic inp r) g k fuel j cs = Some x ->
  exists j' cs', sem ic inp (Star g r) j cs j' cs' /\ k j' cs' = Some x.
Proof.
  induction fuel as [|f IHf]; intros j cs H; simpl in H.
  - exists j, cs; split; [constructor | exact H].
  - destruct g.
    + destruct (m ic inp r _ j cs) eqn:E.
      * inversion H; subst.
        destruct (IH _ _ _ E) as (j1 & cs1 & S1 & K1).
        destruct (Nat.ltb j j1) eqn:L; [|discriminate].
        apply Nat.ltb_lt in L.
        destruct (IHf _ _ K1) as (j2 & cs2 & S2 & K2).
        exists j2, cs2; split; [eapply sem_starS; eauto | exact K2].
      * exists j, cs; split; [constructor | exact H].
    + destruct (k j cs) eqn:E.
      * inversion H; subst. exists j, cs; split; [constructor | exact E].
      * destruct (IH _ _ _ H) as (j1 & cs1 & S1 & K1).
        destruct (Nat.ltb j j1) eqn:L; [|discriminate].
        apply Nat.ltb_lt in L.
        destruct (IHf _ _ K1) as (j2 & cs2 & S2 & K2).
        exists j2, cs2; split; [eapply sem_starS; eauto | exact K2].
Qed.

(** Every result of the matcher comes from a derivation of [sem]. *)
Lemma m_sound : forall r k i cs x, m ic inp r k i cs = Some x ->
  exists j cs', sem ic inp r i cs j cs' /\ k j cs' = Some x.
Proof.
  induction r; intros k i cs x H; simpl in H.
  - exists i, cs; split; [constructor | exact H].
  - destruct (char_at inp i) eqn:E; [|discriminate].
    destruct (lit_ok ic c c0) eqn:L; [|discriminate].
    exists (S i), cs; split; [econstructor; eauto | exact H].
  - destruct (char_at inp i) eqn:E; [|discriminate].
    destruct (cls_ok ic p c) eqn:L; [|discriminate].
    exists (S i), cs; split; [econstructor; eauto | exact H].
  - destruct (char_at inp i) eqn:E; [|discriminate].
    destruct (N.eqb c 10) eqn:L; [discriminate|].
    exists (S i), cs; split; [econstructor; eauto | exact H].
  - destruct (Nat.eqb i 0) eqn:E; [|discriminate].
    apply Nat.eqb_eq in E; subst.
    exists 0, cs; split; [constructor | exact H].
  - match type of H with (if ?b then _ else _) = _ => destruct b eqn:E end; [|discriminate].
    exists i, cs; split; [constructor; exact E | exact H].
  - match type of H with (if ?b then _ else _) = _ => destruct b eqn:E end; [|discriminate].
    exists i, cs; split; [constructor; exact E | exact H].
  - destruct (IHr1 _ _ _ _ H) as (j & cs1 & S1 & K1).
    destruct (IHr2 _ _ _ _ K1) as (j2 & cs2 & S2 & K2).
    exists j2, cs2; split; [econstructor; eauto | exact K2].
  - destruct (m ic inp r1 k i cs) eqn:E.
    + inversion H; subst.
      destruct (IHr1 _ _ _ _ E) as (j & cs1 & S1 & K1).
      exists j, cs1; split; [apply sem_alt1; exact S1 | exact K1].
    + destruct (IHr2 _ _ _ _ H) as (j & cs1 & S1 & K1).
      exists j, cs1; split; [apply sem_alt2; exact S1 | exact K1].
  - change (star_loop (m ic inp r) greedy k (S (List.length inp - i)) i cs = Some x) in H.
    eapply star_loop_sound; [|exact H]. intros; apply IHr; assumption.
  - destruct (IHr _ _ _ _ H) as (j & cs1 & S1 & K1).
    exists j, ((n, (i, j)) :: cs1); split; [constructor; exact S1 | exact K1].
Qed.

Lemma sem_le r i cs j cs' : sem ic inp r i cs j cs' -> i <= j.
Proof. induction 1; lia. Qed.

Lemma sem_le_len r i cs j cs' : sem ic inp r i cs j cs' -> i <= List.length inp -> j <= List.length inp.
Proof.
  induction 1; intros L; auto.
  - unfold char_at in H; assert (nth_error inp i <> None) as H2 by congruence; apply nth_error_Some in H2; lia.
  - unfold char_at in H; assert (nth_error inp i <> None) as H2 by congruence; apply nth_error_Some in H2; lia.
  - unfold char_at in H; assert (nth_error inp i <> None) as H2 by congruence; apply nth_error_Some in H2; lia.
Qed.

(** A match only pushes captures of the groups of its pattern. *)
Lemma sem_caps r i cs j cs' : sem ic inp r i cs j cs' ->
  exists nw, cs' = nw ++ cs /\ Forall (fun e => In (fst e) (grps r)) nw.
Proof.
  induction 1; simpl;
    try (exists []; split; [reflexivity | constructor]).
  - destruct IHsem1 as (n1 & -> & F1), IHsem2 as (n2 & -> & F2).
    exists (n2 ++ n1); split; [apply app_assoc|].
    apply Forall_app; split; eapply Forall_impl; try eassumption; simpl; intros; apply in_or_app; auto.
  - destruct IHsem as (n1 & -> & F1). exists n1; split; [auto|].
    eapply Forall_impl; [|eassumption]; simpl; intros; apply in_or_app; auto.
  - destruct IHsem as (n1 & -> & F1). exists n1; split; [auto|].
    eapply Forall_impl; [|eassumption]; simpl; intros; apply in_or_app; auto.
  - destruct IHsem1 as (n1 & -> & F1), IHsem2 as (n2 & -> & F2).
    exists (n2 ++ n1); split; [apply app_assoc|].
    apply Forall_app; split; assumption.
  - destruct IHsem as (n1 & -> & F1).
    exists ((n, (i, j)) :: n1); split; [reflexivity|].
    constructor; [left; reflexivity|].
    eapply Forall_impl; [|eassumption]; simpl; intros; right; assumption.
Qed.

End Sound.

Lemma lookup_cap_app n nw cs :
  Forall (fun e => fst e <> n) nw -> lookup_cap n (nw ++ cs) = lookup_cap n cs.
Proof.
  induction 1 as [|[k v] nw' Hk _ IH]; simpl; auto.
  simpl in Hk. destruct (Nat.eqb k n) eqn:E; [apply Nat.eqb_eq in E; congruence|]. exact IH.
Qed.

(** What a successful [search] rests on. *)
Lemma search_from_sound ic s r fuel i a b cs :
  search_from ic s r fuel i = Some (a, b, cs) ->
  i <= a /\ m ic s r (accept) a [] = Some (b, cs)
  /\ forall p, i <= p < a -> match_at ic s r p = None.
Proof.
  revert i; induction fuel as [|f IH]; intros i H; simpl in H;
    destruct (match_at ic s r i) as [[j c]|] eqn:E.
  - inversion H; subst. split; [lia|split; [exact E|intros; lia]].
  - discriminate.
  - inversion H; subst. split; [lia|split; [exact E|intros; lia]].
  - destruct (IH _ H) as (L & M & P). split; [lia|split; [exact M|]].
    intros p Hp. destruct (Nat.eq_dec p i); [subst; exact E|apply P; lia].
Qed.

Lemma search_sound r s mo : search r s = Some mo ->
  m_inp mo = s /\ sem false s r (m_start mo) [] (m_end mo) (m_caps mo).
Proof.
  unfold search, search_ic. destruct (search_from false s r _ 0) as [[[a b] cs]|] eqn:E; [|discriminate].
  intros H; inversion H; subst; simpl. split; [reflexivity|].
  apply search_from_sound in E as (_ & M & _).
  destruct (m_sound _ _ _ _ _ _ _ M) as (j & cs' & S & K). unfold accept in K. inversion K; subst. exact S.
Qed.


(** Inversion of the matching relation, one constructor at a time. *)
Lemma cat_inv ic inp r1 r2 i cs k cs2 : sem ic inp (Cat r1 r2) i cs k cs2 ->
  exists j cs1, sem ic inp r1 i cs j cs1 /\ sem ic inp r2 j cs1 k cs2.
Proof. inversion 1; subst; eauto. Qed.
Lemma grp_inv ic inp n r i cs j cs' : sem ic inp (Grp n r) i cs j cs' ->
  exists cs0, sem ic inp r i cs j cs0 /\ cs' = (n, (i, j)) :: cs0.
Proof. inversion 1; subst; eauto. Qed.
Lemma alt_inv ic inp r1 r2 i cs j cs' : sem ic inp (Alt r1 r2) i cs j cs' ->
  sem ic inp r1 i cs j cs' \/ sem ic inp r2 i cs j cs'.
Proof. inversion 1; subst; auto. Qed.
Lemma eps_inv ic inp i cs j cs' : sem ic inp Eps i cs j cs' -> j = i /\ cs' = cs.
Proof. inversion 1; subst; auto. Qed.
Lemma bol_inv ic inp i cs j cs' : sem ic inp Bol i cs j cs' -> i = 0 /\ j = 0 /\ cs' = cs.
Proof. inversion 1; subst; auto. Qed.
Lemma plus_inv ic inp p r i cs j cs' : sem ic inp (Cat (Cat (Cls p) r) Eps) i cs j cs' ->
  i < j <= List.length inp.
Proof.
  intros H. apply cat_inv in H as (j1 & c1 & H1 & H2). apply eps_inv in H2 as [-> ->].
  apply cat_inv in H1 as (j2 & c2 & H1 & H3). inversion H1; subst.
  assert (nth_error inp i <> None) as E by (unfold char_at in *; congruence).
  apply nth_error_Some in E.
  pose proof (sem_le _ _ _ _ _ _ _ H3). apply sem_le_len in H3; lia.
Qed.
Lemma sem_lookup ic inp r i cs j cs' n : sem ic inp r i cs j cs' -> ~ In n (grps r) ->
  lookup_cap n cs' = lookup_cap n cs.
Proof.
  intros H N. apply sem_caps in H as (nw & -> & F). apply lookup_cap_app.
  eapply Forall_impl; [|exact F]. simpl. intros e He E. subst. contradiction.
Qed.
Lemma slice_nonempty s a b : a < b <= List.length s -> slice s a b <> [].
Proof.
  intros H E. unfold slice in E. apply (f_equal (@List.length _)) in E.
  rewrite length_firstn, length_skipn in E. simpl in E. lia.
Qed.
(** A group number that does not occur in a pattern. *)
Ltac nogrp := vm_compute; let H := fresh in intro H; repeat destruct H as [H|H]; congruence.

End ReFacts.

(** * Scenario A (claim C1) *)
Module ScenarioFacts.
Import Py Num Rec Spec.

(** The product row of scenario A, as the PDF text gives it. *)
Definition scenario_a_row : str := nth 3 scenario_a [].

(** C1 (code bug): on scenario A neither profile yields the announced Order
    and ProductLine.  Both emit the Order alone, with the CNPJ in CNPJ
    Cliente, and no ProductLine.  Yet the Mondelez format B pattern matches
    the raw product row with supplier code 100001, unit price 10,00,
    quantity 2,00 and description ARROZ BRANCO 5KG; the row is lost because
    [_process_text] collapses its double spaces before matching. *)
Theorem scenario_a_product_lost :
  ~ scenario_a_expected (Mondelez.process scenario_a)
  /\ ~ scenario_a_expected (RedeBiz.process scenario_a)
  /\ Mondelez.process scenario_a
    = [TPedidos [pset (novo_pedido_dict (u "4500012345")) CNPJCliente (u "12.345.678/0001-90")]]
  /\ RedeBiz.process scenario_a
    = [TPedidos [pset (novo_pedido_dict (u "4500012345")) CNPJCliente (u "12.345.678/0001-90")]]
  /\ option_map (Mondelez.format_b_produto (u "4500012345"))
       (Re.search Mondelez.re_format_b scenario_a_row)
     = Some (Produto (u "4500012345") (u "100001") (u "10,00") (u "2,00") (u "UN") (u "1")
                     (u "ARROZ BRANCO 5KG") [])
  /\ Re.search Mondelez.re_smart (Mondelez.clean_garbled_line (Mondelez.normalize scenario_a_row)) = None
  /\ Re.search Mondelez.re_format_b (Mondelez.clean_garbled_line (Mondelez.normalize scenario_a_row)) = None.
Proof.
  split; [intros (p & r & E & _); vm_compute in E; discriminate E|].
  split; [intros (p & r & E & _); vm_compute in E; discriminate E|].
  repeat split; vm_compute; reflexivity.
Qed.

End ScenarioFacts.

(** * The numeric normaliser (claim C4) *)
Module NumFacts.
Import Py Num.
Import QArith.

(** C4: [conv_num] maps "1.234,56" to 1234.56 and "6,97" to 6.97, and every
    string whose separator-replaced form [float()] rejects, such as "abc",
    to 0; it is a total function, so it never raises. *)
Theorem conv_num_spec :
  conv_num (u "1.234,56") = PFin (123456 # 100)
  /\ conv_num (u "6,97") = PFin (697 # 100)
  /\ py_float (replace (u ",") (u ".") (replace (u ".") (u "") (u "abc"))) = None
  /\ (forall s, py_float (replace (u ",") (u ".") (replace (u ".") (u "") s)) = None ->
                conv_num s = PFin 0).
Proof.
  split; [vm_compute; reflexivity|]. split; [vm_compute; reflexivity|].
  split; [vm_compute; reflexivity|].
  intros s H. unfold conv_num. rewrite H. reflexivity.
Qed.

Lemma conv_num_spec_witness :
  py_float (replace (u ",") (u ".") (replace (u ".") (u "") (u "abc"))) = None
  /\ conv_num (u "abc") = PFin 0.
Proof.
  split; [vm_compute; reflexivity|].
  apply (proj2 (proj2 (proj2 conv_num_spec)) (u "abc")). vm_compute. reflexivity.
Defined.

End NumFacts.

(** * The RedeBiz scan creates no product (claim C5) *)
Module RedeBizFacts.
Import Py Re Rec RedeBiz.

Lemma step_keeps_no_product st l :
  current_produto st = None -> produtos_list st = [] ->
  current_produto (step st l) = None /\ produtos_list (step st l) = [].
Proof.
  intros H1 H2. unfold step.
  destruct (has "PEDIDO DE COMPRAS" (strip l)).
  - destruct (current_pedido st); [destruct (negb _)|]; simpl; auto.
  - destruct (current_pedido st); [|auto]. unfold seal. rewrite H1.
    repeat match goal with |- context [if ?b then _ else _] => destruct b end; simpl; auto.
Qed.

Lemma fold_keeps_no_product linhas st :
  current_produto st = None -> produtos_list st = [] ->
  current_produto (fold_left step linhas st) = None
  /\ produtos_list (fold_left step linhas st) = [].
Proof.
  revert st; induction linhas as [|l r IH]; intros st H1 H2; simpl; auto.
  destruct (step_keeps_no_product st l H1 H2). apply IH; assumption.
Qed.

(** C5: along the whole RedeBiz scan the open product is [None]; the
    product list is empty, and [process] returns at most one table, the
    Orders one. *)
Theorem redebiz_no_products linhas :
  (forall k, current_produto (fold_left step (firstn k linhas) init) = None)
  /\ snd (scan linhas) = []
  /\ (forall t, In t (process linhas) -> exists ps, t = TPedidos ps)
  /\ List.length (process linhas) <= 1.
Proof.
  assert (Hs : snd (scan linhas) = []).
  { unfold scan, finish, seal. simpl.
    destruct (fold_keeps_no_product linhas init eq_refl eq_refl) as [-> ->]. reflexivity. }
  split; [intros k; apply fold_keeps_no_product; reflexivity|]. split; [exact Hs|].
  unfold process. destruct (scan linhas) as [peds prods]. simpl in Hs. subst prods.
  destruct peds; simpl; split; try lia; intros t Ht;
    repeat destruct Ht as [Ht|Ht]; subst; eauto; contradiction.
Qed.

End RedeBizFacts.

(** * Product rows, end of stream and the DataFrame (claims C6, C8, C9) *)
Module MondelezFacts.
Import Py Re Num Rec ReFacts Mondelez.

(** The smart pattern always captures a nonempty first number, and a
    nonempty second one when the optional group takes part. *)
Lemma smart_groups l mo : search re_smart l = Some mo ->
  (exists n1, group mo 1 = Some n1 /\ n1 <> []) /\
  (group mo 2 = None \/ exists n2, group mo 2 = Some n2 /\ n2 <> []).
Proof.
  intros H. apply search_sound in H as [Hi H].
  unfold group. destruct mo as [inp a b cs]; simpl in *; subst inp.
  unfold re_smart, compile in H. vm_compute in H.
  apply cat_inv in H as (j1 & c1 & H1 & H). apply bol_inv in H1 as (-> & -> & ->).
  apply cat_inv in H as (j2 & c2 & H2 & H).
  apply cat_inv in H as (j3 & c3 & H3 & H).
  apply grp_inv in H3 as (c4 & H3 & ->).
  apply cat_inv in H as (j5 & c5 & H5 & H).
  apply cat_inv in H as (j6 & c6 & H6 & H).
  rewrite (sem_lookup _ _ _ _ _ _ _ 1 H) by nogrp.
  rewrite (sem_lookup _ _ _ _ _ _ _ 2 H) by nogrp.
  rewrite (sem_lookup _ _ _ _ _ _ _ 1 H6) by nogrp.
  rewrite (sem_lookup _ _ _ _ _ _ _ 1 H5) by nogrp. simpl.
  split.
  - eexists; split; [reflexivity|]. apply slice_nonempty. eapply plus_inv; exact H3.
  - apply alt_inv in H6 as [H6|H6].
    + right. apply cat_inv in H6 as (j7 & c7 & H7 & H8).
      rewrite (sem_lookup _ _ _ _ _ _ _ 2 H8) by nogrp.
      apply grp_inv in H7 as (c9 & H7 & ->). simpl.
      eexists; split; [reflexivity|]. apply slice_nonempty. eapply plus_inv; exact H7.
    + left. apply eps_inv in H6 as [-> ->].
      rewrite (sem_lookup _ _ _ _ _ _ _ 2 H5) by nogrp. simpl.
      rewrite (sem_lookup _ _ _ _ _ _ _ 2 H3) by nogrp.
      rewrite (sem_lookup _ _ _ _ _ _ _ 2 H2) by nogrp. reflexivity.
Qed.

(** C6: for a row matched by the smart pattern, with its first number [n1]:
    when the optional second number is absent, [n1] becomes the EAN (and the
    code stays empty) if it has more than 7 digits, and the code (and the EAN
    stays empty) otherwise; when a second number [n2] is present, [n1] is the
    EAN and [n2] the code. *)
Theorem smart_row_ids numero l mo :
  search re_smart l = Some mo ->
  let pr := smart_produto numero mo in
  let n1 := group_str mo 1 in
  (group mo 2 = None -> 7 < List.length n1 -> ean pr = n1 /\ codigo_fornecedor pr = [])
  /\ (group mo 2 = None -> List.length n1 <= 7 -> codigo_fornecedor pr = n1 /\ ean pr = [])
  /\ (forall n2, group mo 2 = Some n2 -> ean pr = n1 /\ codigo_fornecedor pr = n2).
Proof.
  intros H pr n1. destruct (smart_groups l mo H) as [(x1 & E1 & N1) G2].
  unfold pr, n1, smart_produto, smart_ids, group_str. rewrite E1.
  destruct x1 as [|c x1]; [contradiction|]. simpl truthy.
  split; [|split].
  - intros E2 L. rewrite E2. apply Nat.ltb_lt in L. simpl andb. cbv iota zeta. rewrite L. auto.
  - intros E2 L. rewrite E2. apply Nat.ltb_ge in L. simpl andb. cbv iota zeta. rewrite L. auto.
  - intros n2 E2. rewrite E2. destruct G2 as [G2|(y & Ey & Ny)]; [congruence|].
    rewrite Ey in E2. inversion E2; subst. destruct n2; [contradiction|]. simpl. auto.
Qed.

Lemma smart_row_ids_witness :
  let mo := match search re_smart Spec.ean_only_row with
            | Some mo => mo | None => MObj [] 0 0 [] end in
  search re_smart Spec.ean_only_row = Some mo
  /\ group mo 2 = None
  /\ ean (smart_produto (u "12345") mo) = u "7891234567890"
  /\ codigo_fornecedor (smart_produto (u "12345") mo) = [].
Proof.
  intros mo.
  assert (E : search re_smart Spec.ean_only_row = Some mo) by (vm_compute; reflexivity).
  assert (G : group mo 2 = None) by (vm_compute; reflexivity).
  assert (L : 7 < List.length (group_str mo 1)) by (vm_compute; lia).
  destruct (proj1 (smart_row_ids (u "12345") _ mo E) G L) as [A B].
  split; [exact E|]. split; [exact G|]. split; [|exact B].
  rewrite A. vm_compute. reflexivity.
Defined.

End MondelezFacts.

(** * End of stream and identifier columns (claims C8, C9) *)
Module OutputFacts.
Import Py Num Rec Spec.

(** C8 (counterexample): the Mondelez scan ends with an open product whose
    supplier code is empty, and still appends it. *)
Lemma end_of_stream_counterexample :
  let st := fold_left Mondelez.step ean_only_lines Mondelez.init in
  exists pr, Mondelez.current_produto st = Some pr /\ codigo_fornecedor pr = []
    /\ snd (Mondelez.scan ean_only_lines) = Mondelez.produtos_list st ++ [pr].
Proof.
  intros st.
  exists (Produto (u "12345") [] (u "5,00") (u "2") (u "UN") (u "0") (u "ARROZ") (u "7891234567890")).
  split; [|split]; vm_compute; reflexivity.
Qed.

(** C8 (amended): at the end of the stream both profiles append the open
    Order, if any; RedeBiz appends the open ProductLine only when its
    supplier code is nonempty, Mondelez appends it unconditionally. *)
Theorem end_of_stream linhas :
  (let st := fold_left RedeBiz.step linhas RedeBiz.init in
   RedeBiz.scan linhas =
     (RedeBiz.pedidos st ++ opt_list (RedeBiz.current_pedido st),
      RedeBiz.produtos_list st
        ++ match RedeBiz.current_produto st with
           | Some pr => if truthy (codigo_fornecedor pr) then [pr] else []
           | None => []
           end))
  /\ (let st := fold_left Mondelez.step linhas Mondelez.init in
      Mondelez.scan linhas =
        (Mondelez.pedidos st ++ opt_list (Mondelez.current_pedido st),
         Mondelez.produtos_list st ++ opt_list (Mondelez.current_produto st))).
Proof.
  split; intros st.
  - unfold RedeBiz.scan, RedeBiz.finish, RedeBiz.seal. fold st.
    destruct (RedeBiz.current_pedido st), (RedeBiz.current_produto st) as [pr|];
      try destruct (truthy (codigo_fornecedor pr)); simpl; rewrite ?app_nil_r; reflexivity.
  - reflexivity.
Qed.

(** C9 (divergence): the RedeBiz rows coerce both identifier columns to
    int64, while the Mondelez rows coerce only the supplier code and keep the
    EAN as a string; on an order with one product row with an EAN the
    Mondelez EAN cell is the string "7891234567890". *)
Theorem ean_column_not_coerced :
  (forall pr, r_codigo_fornecedor (RedeBiz.to_row pr) = CInt (to_int64 (codigo_fornecedor pr))
              /\ r_ean (RedeBiz.to_row pr) = CInt (to_int64 (ean pr)))
  /\ (forall pr, r_codigo_fornecedor (Mondelez.to_row pr) = CInt (to_int64 (codigo_fornecedor pr))
                 /\ r_ean (Mondelez.to_row pr) = CStr (ean pr))
  /\ (exists r, Mondelez.process ean_only_lines
                = [TPedidos [novo_pedido_dict (u "12345")]; TProdutos [r]]
                /\ r_ean r = CStr (u "7891234567890")).
Proof.
  split; [intros; split; reflexivity|]. split; [intros; split; reflexivity|].
  eexists; split; [vm_compute; reflexivity|]. reflexivity.
Qed.

End OutputFacts.

(** * Continuation lines (claim C7) *)
Module ContinuationFacts.
Import Py Re Rec Spec Mondelez.

Lemma str_eqb_refl s : str_eqb s s = true.
Proof. induction s; simpl; rewrite ?N.eqb_refl; auto. Qed.

(** A line whose valid order numbers all repeat the open order leaves the
    segmentation state as it is. *)
Lemma order_matches_same ms st cp :
  current_pedido st = Some cp ->
  (forall mo, In mo ms -> valid_candidate (group_str mo 1) = true ->
              group_str mo 1 = numero_do_pedido cp) ->
  order_matches ms st = st.
Proof.
  intros Hc; induction ms as [|mo ms IH]; intros Hm; simpl; auto.
  destruct (valid_candidate (group_str mo 1)) eqn:V.
  - rewrite Hc. rewrite (Hm mo (or_introl eq_refl) V), str_eqb_refl. simpl.
    apply IH. intros; apply Hm; simpl; auto.
  - apply IH. intros; apply Hm; simpl; auto.
Qed.

Lemma re_digit_start_eq : re_digit_start = Cat Bol (Cat (Cls isdigit) Eps).
Proof. vm_compute. reflexivity. Qed.

Lemma rmatch_digit_start l :
  match rmatch re_digit_start l with Some _ => true | None => false end = starts_with_digit l.
Proof.
  rewrite re_digit_start_eq. unfold rmatch, match_at. destruct l as [|c r]; simpl; auto.
  unfold char_at, cls_ok. simpl. destruct (isdigit c); reflexivity.
Qed.

(** C7 (counterexample): "Bairro Centro", read with an order and a product
    open inside the section, meets every condition of the rule but is not
    appended: the source also skips lines naming an address or registry
    field. *)
Lemma continuation_rule_counterexample : ~ continuation_rule ean_only_state (u "Bairro Centro").
Proof.
  intros H.
  destruct (H (match Mondelez.current_pedido ean_only_state with Some cp => cp | None => novo_pedido_dict [] end)
              (match Mondelez.current_produto ean_only_state with
               | Some pr => pr | None => Produto [] [] [] [] [] [] [] [] end))
    as [E _]; try (vm_compute; reflexivity); try (vm_compute; lia).
  vm_compute in E. discriminate E.
Qed.

(** C7 (amended): inside the section, with an order and a product open, a
    line that does not switch the order, is no section boundary or repeated
    header, and matches neither row pattern (after the garbled-line
    reconstruction) seals and creates nothing: the lists are unchanged and
    the open product becomes its continuation.  With an EAN marker matched
    by [EANs?:\s*([\d,\s]+)] the EAN becomes the stripped capture; without
    marker, a line longer than three characters, not starting with a digit,
    without blocked keyword (upper case) and without ignored word (Bairro,
    Cidade, CNPJ, Endereço, Telefone, Inscrição, Pedido) is appended to the
    description after one space; any other line changes nothing. *)
Theorem continuation_step st l cp pr :
  current_pedido st = Some cp -> current_produto st = Some pr -> in_produtos_section st = true ->
  let l' := normalize l in
  (forall mo, In mo (finditer_ic true re_pedido l') -> valid_candidate (group_str mo 1) = true ->
              group_str mo 1 = numero_do_pedido cp) ->
  section_start l' = false -> section_end l' = false -> repeated_header l' = false ->
  search re_smart (clean_garbled_line l') = None ->
  search re_format_b (clean_garbled_line l') = None ->
  step st l = State (pedidos st) (produtos_list st) (Some (header l' cp))
                    (Some (continuation l' pr)) true
  /\ (forall mo, has "EAN" l' = true -> search re_ean l' = Some mo ->
                 continuation l' pr = set_ean pr (strip (group_str mo 1)))
  /\ (has "EAN" l' = false -> 3 < List.length l' -> starts_with_digit l' = false ->
      existsb (fun b => contains b (upper l')) blocked = false ->
      existsb (fun x => contains x l') ignored = false ->
      continuation l' pr = set_descricao pr (descricao pr ++ u " " ++ l'))
  /\ (has "EAN" l' = false ->
      (List.length l' <= 3 \/ starts_with_digit l' = true
       \/ existsb (fun b => contains b (upper l')) blocked = true
       \/ existsb (fun x => contains x l') ignored = true) ->
      continuation l' pr = pr).
Proof.
  intros Hc Hp Hs l' Hm S1 S2 S3 M1 M2.
  split; [|split; [|split]].
  - unfold step. fold l'. rewrite (order_matches_same _ _ _ Hc Hm), Hc.
    unfold products_step. rewrite S1, Hs, S2, S3. simpl. rewrite M1, M2, Hp.
    destruct st; simpl in *; subst; reflexivity.
  - intros mo E R. unfold continuation. rewrite E, R. reflexivity.
  - intros E L D B I. unfold continuation. rewrite E, rmatch_digit_start, D, B, I.
    apply Nat.ltb_lt in L. rewrite L. reflexivity.
  - intros E C. unfold continuation. rewrite E, rmatch_digit_start.
    destruct (Nat.ltb 3 (List.length l')) eqn:L; [|reflexivity].
    apply Nat.ltb_lt in L.
    cbv zeta. destruct C as [C|[C|[C|C]]]; [lia| rewrite C | rewrite C | rewrite C];
      simpl; rewrite ?andb_false_r; destruct (negb (starts_with_digit l')); reflexivity.
Qed.

Lemma continuation_step_witness :
  exists cp pr,
  Mondelez.current_pedido ean_only_state = Some cp
  /\ Mondelez.current_produto ean_only_state = Some pr
  /\ Mondelez.step ean_only_state (u "INTEGRAL")
     = State (pedidos ean_only_state) (produtos_list ean_only_state)
             (Some (header (normalize (u "INTEGRAL")) cp))
             (Some (continuation (normalize (u "INTEGRAL")) pr)) true.
Proof.
  exists (novo_pedido_dict (u "12345")),
         (Produto (u "12345") [] (u "5,00") (u "2") (u "UN") (u "0") (u "ARROZ") (u "7891234567890")).
  assert (Hc : Mondelez.current_pedido ean_only_state = Some (novo_pedido_dict (u "12345")))
    by (vm_compute; reflexivity).
  assert (Hp : Mondelez.current_produto ean_only_state
               = Some (Produto (u "12345") [] (u "5,00") (u "2") (u "UN") (u "0") (u "ARROZ")
                          (u "7891234567890"))) by (vm_compute; reflexivity).
  split; [exact Hc|]. split; [exact Hp|].
  refine (proj1 (continuation_step ean_only_state (u "INTEGRAL") _ _ Hc Hp _ _ _ _ _ _ _));
    try (vm_compute; reflexivity).
  intros mo Hin. vm_compute in Hin. contradiction.
Defined.

End ContinuationFacts.



(** * Blank lines and the page text *)
Module BlankFacts.
Import Py Re Rec Text Layout Extract.

Lemma lstrip_blank l : blank l = true -> lstrip l = [].
Proof.
  induction l as [|c r IH]; simpl; auto.
  intros H. apply andb_true_iff in H as [H1 H2]. rewrite H1. auto.
Qed.

Lemma strip_blank l : blank l = true -> strip l = [].
Proof. intros H. unfold strip. rewrite lstrip_blank by exact H. reflexivity. Qed.

Lemma split_ws_aux_blank l : blank l = true -> split_ws_aux l [] = [].
Proof.
  induction l as [|c r IH]; simpl; auto.
  intros H. apply andb_true_iff in H as [H1 H2]. rewrite H1. auto.
Qed.

Lemma prefixb_blank t s : blank s = true -> existsb (fun c => negb (isspace c)) t = true ->
  prefixb t s = false.
Proof.
  revert s; induction t as [|a t IH]; intros s Hs Ht; [discriminate|].
  destruct s as [|b s]; [reflexivity|]. simpl in *.
  apply andb_true_iff in Hs as [Hb Hs].
  destruct (N.eqb a b) eqn:E; [|reflexivity]. apply N.eqb_eq in E; subst.
  rewrite Hb in Ht. simpl in Ht. simpl. apply IH; assumption.
Qed.

(** A text with a non-space character does not occur in a blank line. *)
Lemma contains_blank t l : blank l = true -> existsb (fun c => negb (isspace c)) t = true ->
  contains t l = false.
Proof.
  intros Hl Ht. unfold contains, find. generalize 0.
  induction l as [|c r IH]; intros n; simpl.
  - rewrite (prefixb_blank t [] eq_refl Ht). reflexivity.
  - rewrite (prefixb_blank t (c :: r) Hl Ht).
    unfold blank in Hl; simpl in Hl. apply andb_true_iff in Hl as [H1 H2]. apply IH; exact H2.
Qed.

Lemma contains_nil t : truthy t = true -> contains t [] = false.
Proof. destruct t; [discriminate|]. reflexivity. Qed.

Ltac nohas := repeat match goal with
  | |- context [RedeBiz.has ?p []] =>
      let E := fresh in
      assert (E : RedeBiz.has p [] = false) by (apply contains_nil; vm_compute; reflexivity);
      rewrite E; clear E
  | |- context [Mondelez.has ?p []] =>
      let E := fresh in
      assert (E : Mondelez.has p [] = false) by (apply contains_nil; vm_compute; reflexivity);
      rewrite E; clear E
  | |- context [Text.has ?p []] =>
      let E := fresh in
      assert (E : Text.has p [] = false) by (apply contains_nil; vm_compute; reflexivity);
      rewrite E; clear E
  end.

Lemma redebiz_step_blank st l : blank l = true -> RedeBiz.step st l = st.
Proof.
  intros H. unfold RedeBiz.step. rewrite strip_blank by exact H. nohas.
  destruct (RedeBiz.current_pedido st) as [cp|] eqn:E; [|reflexivity].
  unfold RedeBiz.header. nohas. destruct st; simpl in *; subst; rewrite ?andb_false_r; reflexivity.
Qed.

Lemma normalize_blank l : blank l = true -> Mondelez.normalize l = [].
Proof.
  intros H. unfold Mondelez.normalize, split_ws. rewrite split_ws_aux_blank by exact H.
  vm_compute. reflexivity.
Qed.

Lemma mondelez_step_blank st l : blank l = true -> Mondelez.step st l = st.
Proof.
  intros H. unfold Mondelez.step. rewrite normalize_blank by exact H.
  assert (F : finditer_ic true Mondelez.re_pedido [] = []) by (vm_compute; reflexivity).
  rewrite F. simpl Mondelez.order_matches.
  destruct (Mondelez.current_pedido st) as [cp|] eqn:E; [|reflexivity].
  unfold Mondelez.header. nohas.
  unfold Mondelez.products_step, Mondelez.section_start, Mondelez.section_end,
    Mondelez.repeated_header. nohas. cbn [orb andb].
  assert (C : Mondelez.clean_garbled_line [] = []) by (vm_compute; reflexivity).
  assert (S1 : search Mondelez.re_smart [] = None) by (vm_compute; reflexivity).
  assert (S2 : search Mondelez.re_format_b [] = None) by (vm_compute; reflexivity).
  rewrite C, S1, S2.
  destruct (Mondelez.current_produto st) as [pr|] eqn:P;
    [destruct (Mondelez.in_produtos_section st) eqn:I|];
    rewrite ?andb_false_r;
    destruct st; simpl in *; subst; reflexivity.
Qed.

Lemma fold_filter_blank {A} (f : A -> str -> A) ls a :
  (forall a l, blank l = true -> f a l = a) ->
  fold_left f (filter (fun l => negb (blank l)) ls) a = fold_left f ls a.
Proof.
  intros Hf; revert a; induction ls as [|l r IH]; intros a; simpl; auto.
  destruct (blank l) eqn:B; simpl; [rewrite Hf by exact B|]; apply IH.
Qed.

Lemma info_line_blank d l : blank l = true -> info_line d l = d.
Proof. intros H. unfold info_line. rewrite strip_blank by exact H. nohas. reflexivity. Qed.

Lemma is_header_blank l : blank l = true -> is_header l = false.
Proof.
  intros H. unfold is_header, Text.has.
  rewrite (contains_blank _ l H) by (vm_compute; reflexivity). reflexivity.
Qed.

Lemma flat_map_filter_blank {B} (f : str -> list B) ls :
  (forall l, blank l = true -> f l = []) -> flat_map f (filter nonblank ls) = flat_map f ls.
Proof.
  intros Hf. induction ls as [|l r IH]; simpl; auto.
  unfold nonblank at 1. destruct (blank l) eqn:E; simpl; rewrite IH; [rewrite (Hf l E)|]; reflexivity.
Qed.

Lemma after_header_filter ls :
  after_header (filter nonblank ls) = option_map (filter nonblank) (after_header ls).
Proof.
  induction ls as [|l r IH]; simpl; auto.
  unfold nonblank at 1. destruct (blank l) eqn:B; simpl.
  - rewrite is_header_blank by exact B. exact IH.
  - destruct (is_header l); [reflexivity | exact IH].
Qed.

Lemma produtos_after_filter r : produtos_after (filter nonblank r) = produtos_after r.
Proof.
  induction r as [|l r IH]; simpl; auto.
  unfold nonblank at 1. destruct (blank l) eqn:B; simpl.
  - rewrite strip_blank by exact B. rewrite IH. reflexivity.
  - rewrite IH. reflexivity.
Qed.

Lemma dados_genericos_filter ls : dados_genericos (filter nonblank ls) = dados_genericos ls.
Proof.
  unfold dados_genericos. apply flat_map_filter_blank.
  intros l B. rewrite strip_blank by exact B. reflexivity.
Qed.

Lemma contenido_filter ls : filter truthy (map strip (filter nonblank ls)) = filter truthy (map strip ls).
Proof.
  induction ls as [|l r IH]; simpl; auto.
  unfold nonblank at 1. destruct (blank l) eqn:B; simpl.
  - rewrite strip_blank by exact B. exact IH.
  - rewrite IH. reflexivity.
Qed.

Lemma process_text_filter ls : process_text (filter nonblank ls) = process_text ls.
Proof.
  unfold process_text, info_geral, produtos, fallback.
  rewrite fold_filter_blank by (intros; apply info_line_blank; assumption).
  rewrite after_header_filter, dados_genericos_filter, contenido_filter.
  destruct (after_header ls); simpl; rewrite ?produtos_after_filter; reflexivity.
Qed.

Lemma redebiz_process_filter ls : RedeBiz.process (filter nonblank ls) = RedeBiz.process ls.
Proof.
  unfold RedeBiz.process, RedeBiz.scan.
  rewrite fold_filter_blank by (intros; apply redebiz_step_blank; assumption). reflexivity.
Qed.

Lemma mondelez_process_filter ls : Mondelez.process (filter nonblank ls) = Mondelez.process ls.
Proof.
  unfold Mondelez.process, Mondelez.scan.
  rewrite fold_filter_blank by (intros; apply mondelez_step_blank; assumption). reflexivity.
Qed.

Lemma split_char_aux_app c a b cur :
  split_char_aux c (a ++ c :: b) cur = split_char_aux c a cur ++ split_char_aux c b [].
Proof.
  revert cur; induction a as [|x a IH]; intros cur; simpl.
  - rewrite N.eqb_refl. reflexivity.
  - destruct (N.eqb x c); [rewrite IH; reflexivity | apply IH].
Qed.

Lemma assemble_aux texts acc :
  fold_left (fun acc t => if truthy t then acc ++ t ++ [10%N] else acc) texts acc
  = acc ++ List.concat (map (fun t => t ++ [10%N]) (filter truthy texts)).
Proof.
  revert acc; induction texts as [|t r IH]; intros acc; simpl.
  - rewrite app_nil_r. reflexivity.
  - destruct (truthy t); simpl; rewrite IH; rewrite ?app_assoc; reflexivity.
Qed.

Lemma assemble_concat texts :
  assemble texts = List.concat (map (fun t => t ++ [10%N]) (filter truthy texts)).
Proof. unfold assemble. rewrite assemble_aux. reflexivity. Qed.

Lemma split_assemble texts :
  split_char 10%N (assemble texts) = flat_map (split_char 10%N) (filter truthy texts) ++ [[]].
Proof.
  rewrite assemble_concat. generalize (filter truthy texts) as ts.
  induction ts as [|t r IH]; [reflexivity|]. simpl.
  unfold split_char in *. rewrite <- app_assoc. simpl. rewrite split_char_aux_app, IH.
  apply app_assoc.
Qed.

Lemma filter_trailing_blank ls : filter nonblank (ls ++ [[]]) = filter nonblank ls.
Proof. rewrite filter_app. simpl. apply app_nil_r. Qed.

End BlankFacts.

(** * Extras: blank lines and the page text *)
Module ExtractFacts.
Import Py Rec Text Layout Extract BlankFacts.

(** Whitespace-only lines have no effect on any of the three line
    processors: dropping them leaves the output of the RedeBiz and Mondelez
    scans and of [TextExtractor._process_text] unchanged. *)
Theorem blank_lines_ignored ls :
  RedeBiz.process (filter nonblank ls) = RedeBiz.process ls
  /\ Mondelez.process (filter nonblank ls) = Mondelez.process ls
  /\ process_text (filter nonblank ls) = process_text ls.
Proof.
  split; [apply redebiz_process_filter|]. split; [apply mondelez_process_filter|].
  apply process_text_filter.
Qed.

(** The [extract] drivers hand to their line processor the lines of the
    nonempty page texts, page after page, followed by one empty line (from
    the newline added after each page); that last line changes nothing, so
    each driver returns what its processor returns on the page lines. *)
Theorem extract_page_lines texts :
  split_char 10%N (assemble texts) = flat_map (split_char 10%N) (filter truthy texts) ++ [[]]
  /\ extract_redebiz texts = RedeBiz.process (flat_map (split_char 10%N) (filter truthy texts))
  /\ extract_text texts = process_text (flat_map (split_char 10%N) (filter truthy texts))
  /\ (forall K (lt near : K -> K -> bool) pages,
        extract_mondelez lt near pages
        = Mondelez.process (flat_map (split_char 10%N)
                              (filter truthy (map (extract_text_custom lt near) pages)))).
Proof.
  split; [apply split_assemble|]. unfold extract_redebiz, extract_text, extract_mondelez.
  split; [|split; [|intros]]; rewrite split_assemble.
  - rewrite <- redebiz_process_filter, filter_trailing_blank. apply redebiz_process_filter.
  - rewrite <- process_text_filter, filter_trailing_blank. apply process_text_filter.
  - rewrite <- mondelez_process_filter, filter_trailing_blank. apply mondelez_process_filter.
Qed.

End ExtractFacts.



(** * What the groups of a match capture *)
Module GroupFacts.
Import Py Re ReFacts Shapes.

Section Caps.
Variable ic : bool.
Variable inp : str.

Lemma sem_cap_body r i cs j cs' : sem ic inp r i cs j cs' ->
  exists nw, cs' = nw ++ cs /\
    Forall (fun e => exists b c1 c2, In (fst e, b) (grp_bodies r)
                                /\ sem ic inp b (fst (snd e)) c1 (snd (snd e)) c2) nw.
Proof.
  induction 1; simpl; try (exists []; split; [reflexivity | constructor]).
  - destruct IHsem1 as (n1 & -> & F1), IHsem2 as (n2 & -> & F2).
    exists (n2 ++ n1); split; [apply app_assoc|].
    apply Forall_app; split; eapply Forall_impl; try eassumption; simpl;
      intros e (b & c1 & c2 & Hb & Hs); exists b, c1, c2; split; auto; apply in_or_app; auto.
  - destruct IHsem as (n1 & -> & F1). exists n1; split; [auto|].
    eapply Forall_impl; [|eassumption]; simpl;
      intros e (b & c1 & c2 & Hb & Hs); exists b, c1, c2; split; auto; apply in_or_app; auto.
  - destruct IHsem as (n1 & -> & F1). exists n1; split; [auto|].
    eapply Forall_impl; [|eassumption]; simpl;
      intros e (b & c1 & c2 & Hb & Hs); exists b, c1, c2; split; auto; apply in_or_app; auto.
  - destruct IHsem1 as (n1 & -> & F1), IHsem2 as (n2 & -> & F2).
    exists (n2 ++ n1); split; [apply app_assoc|].
    apply Forall_app; split; assumption.
  - destruct IHsem as (n1 & -> & F1).
    match goal with |- exists nw, (?e :: _) = _ /\ _ => exists (e :: n1) end.
    split; [reflexivity|].
    constructor; [do 3 eexists; split; [left; reflexivity | simpl; eassumption]|].
    eapply Forall_impl; [|eassumption]; simpl;
      intros e (b & c1 & c2 & Hb & Hs); exists b, c1, c2; split; auto.
Qed.

Lemma sem_consumes q r i cs j cs' : sem ic inp r i cs j cs' -> consumes ic q r -> chars_ok q inp i j.
Proof.
  unfold chars_ok. induction 1; simpl; intros C p0 Hk; try lia.
  - assert (p0 = i) by lia; subst. exists x; split; [exact H | apply C; exact H0].
  - assert (p0 = i) by lia; subst. exists x; split; [exact H | apply C; exact H0].
  - assert (p0 = i) by lia; subst. exists x; split; [exact H | apply C; exact H0].
  - destruct C as [C1 C2]. destruct (Nat.lt_ge_cases p0 j).
    + apply IHsem1; auto; lia.
    + apply IHsem2; auto; lia.
  - apply IHsem; [apply C | lia].
  - apply IHsem; [apply C | lia].
  - destruct (Nat.lt_ge_cases p0 j).
    + apply IHsem1; auto; lia.
    + apply IHsem2; auto; lia.
  - apply IHsem; [apply C | lia].
Qed.

End Caps.

Lemma lookup_cap_in n v nw : lookup_cap n (nw ++ []) = Some v -> In (n, v) nw.
Proof.
  rewrite app_nil_r. induction nw as [|[k w] r IH]; simpl; [discriminate|].
  destruct (Nat.eqb k n) eqn:E; intros H.
  - apply Nat.eqb_eq in E. inversion H; subst. left; reflexivity.
  - right; auto.
Qed.

(** A group that took part in a match captured a slice matched by one of
    its bodies. *)
Lemma group_body ic s r a b cs n v :
  sem ic s r a [] b cs -> lookup_cap n cs = Some v ->
  exists body c1 c2, In (n, body) (grp_bodies r) /\ sem ic s body (fst v) c1 (snd v) c2.
Proof.
  intros H L. destruct (sem_cap_body _ _ _ _ _ _ _ H) as (nw & -> & F).
  apply lookup_cap_in in L. rewrite Forall_forall in F. apply (F _ L).
Qed.

Lemma chars_ok_slice q s a b : chars_ok q s a b -> forallb q (slice s a b) = true.
Proof.
  unfold chars_ok, slice. intros H. apply forallb_forall. intros x Hx.
  apply In_nth_error in Hx as [k Hk].
  rewrite nth_error_firstn in Hk. destruct (Nat.ltb k (b - a)) eqn:Lk; [|discriminate].
  apply Nat.ltb_lt in Lk.
  rewrite nth_error_skipn in Hk.
  destruct (H (a + k)) as (y & Hy & Q); [lia|]. rewrite Hk in Hy. inversion Hy; subst; exact Q.
Qed.

(** What a group of a [search] result holds, when each body of the group
    only consumes characters satisfying [q]. *)
Lemma search_group_chars r s mo n q :
  search r s = Some mo ->
  (forall body, In (S n, body) (grp_bodies r) -> consumes false q body) ->
  forallb q (group_str mo (S n)) = true.
Proof.
  intros H Hb. apply search_sound in H as [Hi H].
  destruct mo as [inp a b cs]; simpl in *; subst inp.
  unfold group_str, group; simpl.
  destruct (lookup_cap (S n) cs) as [[x y]|] eqn:L; [|reflexivity].
  destruct (group_body _ _ _ _ _ _ _ _ H L) as (body & c1 & c2 & Hin & Hs).
  apply chars_ok_slice. eapply sem_consumes; [exact Hs | apply Hb; exact Hin].
Qed.

(** The groups of [must r] are bound by every match of [r]. *)
Lemma lookup_cap_app_some n nw cs : lookup_cap n cs <> None -> lookup_cap n (nw ++ cs) <> None.
Proof.
  induction nw as [|[k v] r IH]; simpl; auto.
  destruct (Nat.eqb k n); [discriminate | exact IH].
Qed.

Lemma sem_must ic inp r i cs j cs' n : sem ic inp r i cs j cs' -> In n (must r) -> lookup_cap n cs' <> None.
Proof.
  induction 1; simpl; try contradiction; intros Hn.
  - apply in_app_or in Hn as [Hn|Hn].
    + destruct (sem_caps _ _ _ _ _ _ _ H0) as (nw & -> & _). apply lookup_cap_app_some; auto.
    + auto.
  - destruct Hn as [<-|Hn].
    + rewrite Nat.eqb_refl. discriminate.
    + destruct (Nat.eqb n0 n); [discriminate | auto].
Qed.

Lemma nth_skipn (s : str) a y : nth_error s a = Some y -> skipn a s = y :: skipn (S a) s.
Proof.
  revert s; induction a as [|a IH]; intros [|c s] H; simpl in *; try discriminate.
  - inversion H; reflexivity.
  - apply IH; exact H.
Qed.

(** A literal word matches exactly its own characters. *)
Lemma sem_lits s w : forall a c b c', sem false s (lits w) a c b c' ->
  b = a + List.length w /\ slice s a b = w.
Proof.
  unfold slice. induction w as [|x w IH]; intros a c b c' H; simpl in H.
  - apply eps_inv in H as [-> ->]. simpl. split; [lia | rewrite Nat.sub_diag; reflexivity].
  - apply cat_inv in H as (j & c1 & H1 & H2).
    inversion H1 as [| ? y ? ? Hc Hl | | | | | | | | | | |]; subst.
    unfold lit_ok in Hl. apply N.eqb_eq in Hl. subst.
    destruct (IH _ _ _ _ H2) as [-> E]. split; [simpl; lia|].
    unfold char_at in Hc. rewrite (nth_skipn _ _ _ Hc).
    replace (S a + List.length w - a) with (S (List.length w)) by lia. cbn [firstn].
    replace (S a + List.length w - S a) with (List.length w) in E by lia.
    f_equal. exact E.
Qed.

Lemma sem_units s a c b c' : sem false s units_re a c b c' -> In (slice s a b) embalagens.
Proof.
  unfold units_re.
  intros H; repeat (apply alt_inv in H as [H|H]; [apply sem_lits in H as [_ ->]; simpl; auto 7|]).
  apply sem_lits in H as [_ ->]; simpl; auto 7.
Qed.

(** [finditer] only yields matches of the pattern. *)
Lemma finditer_sound ic r s fuel i mo : In mo (finditer_from ic r s fuel i) ->
  m_inp mo = s /\ sem ic s r (m_start mo) [] (m_end mo) (m_caps mo).
Proof.
  revert i; induction fuel as [|f IH]; intros i H; simpl in H; [contradiction|].
  destruct (Nat.ltb (List.length s) i); [contradiction|].
  destruct (search_from ic s r (List.length s - i) i) as [[[a b] cs]|] eqn:E; [|contradiction].
  destruct H as [<-|H]; [|eapply IH; exact H].
  simpl. split; [reflexivity|].
  apply search_from_sound in E as (_ & M & _).
  destruct (m_sound _ _ _ _ _ _ _ M) as (j & cs' & S & K). unfold accept in K. inversion K; subst. exact S.
Qed.

(** What a group of a match holds. *)
Lemma group_chars ic s r a b cs n q :
  sem ic s r a [] b cs ->
  (forall body, In (S n, body) (grp_bodies r) -> consumes ic q body) ->
  forallb q (group_str (MObj s a b cs) (S n)) = true.
Proof.
  intros H Hb. unfold group_str, group; simpl.
  destruct (lookup_cap (S n) cs) as [[x y]|] eqn:L; [|reflexivity].
  destruct (group_body _ _ _ _ _ _ _ _ H L) as (body & c1 & c2 & Hin & Hs).
  apply chars_ok_slice. eapply sem_consumes; [exact Hs | apply Hb; exact Hin].
Qed.

Lemma group_units s r a b cs n :
  sem false s r a [] b cs -> In (S n) (must r) ->
  (forall body, In (S n, body) (grp_bodies r) -> body = units_re) ->
  In (group_str (MObj s a b cs) (S n)) embalagens.
Proof.
  intros H Hm Hb. unfold group_str, group; simpl.
  destruct (lookup_cap (S n) cs) as [[x y]|] eqn:L.
  - destruct (group_body _ _ _ _ _ _ _ _ H L) as (body & c1 & c2 & Hin & Hs).
    rewrite (Hb _ Hin) in Hs. exact (sem_units _ _ _ _ _ Hs).
  - exfalso. exact (sem_must _ _ _ _ _ _ _ _ H Hm L).
Qed.

Lemma consumes_mono ic q q' r : (forall x, q x = true -> q' x = true) -> consumes ic q r -> consumes ic q' r.
Proof. intros Q; induction r; simpl; intuition. Qed.

(** Case-insensitive [\d] still only matches digits. *)
Lemma cls_ok_digit x : cls_ok true isdigit x = true -> isdigit x = true.
Proof.
  destruct (N.lt_ge_cases x 256) as [L|L].
  - assert (C : forallb (fun n => implb (cls_ok true isdigit (N.of_nat n)) (isdigit (N.of_nat n)))
                        (seq 0 256) = true) by (vm_compute; reflexivity).
    rewrite forallb_forall in C. specialize (C (N.to_nat x)).
    rewrite N2Nat.id in C. intros H; rewrite H in C. apply C, in_seq. lia.
  - unfold cls_ok, upper1, upper_char, lower_char, isdigit, in_range.
    assert (E : forall a, (a <= 255)%N -> (x <=? a)%N = false) by (intros; apply N.leb_gt; lia).
    rewrite !(E 57%N), !(E 122%N), !(E 214%N), !(E 222%N), !(E 90%N), !(E 246%N), !(E 254%N) by lia.
    rewrite !andb_false_r. simpl.
    rewrite !(proj2 (N.eqb_neq x 181%N)), !(proj2 (N.eqb_neq x 223%N)), !(proj2 (N.eqb_neq x 255%N)) by lia.
    rewrite (E 57%N) by lia. rewrite andb_false_r. auto.
Qed.

Lemma digits_re_consumes ic : consumes ic isdigit digits_re.
Proof.
  simpl; repeat split; intros x H; destruct ic; simpl in H;
    try exact H; exact (cls_ok_digit _ H).
Qed.

End GroupFacts.



(** * Header blocks never touch the order number *)
Module HeaderFacts.
Import Py Re Rec.

Lemma pset_numero p f v : numero_do_pedido (pset p f v) = numero_do_pedido p.
Proof. destruct p, f; reflexivity. Qed.

Ltac numero_tac :=
  repeat match goal with
  | |- context [numero_do_pedido (pset ?p _ _)] => rewrite (pset_numero p)
  | |- context [numero_do_pedido (if ?b then _ else _)] => destruct b
  | |- context [numero_do_pedido (match ?o with _ => _ end)] => destruct o
  end; first [reflexivity | assumption].

(** Each if-block reads [if cond then ... else cp]: the previous order is
    named once, then the block is split. *)
Ltac hnum :=
  match goal with
  | |- numero_do_pedido (if ?b then _ else ?X) = ?n =>
      let c := fresh "c" in let Ec := fresh "Ec" in let Hc := fresh "Hc" in
      remember X as c eqn:Ec;
      assert (Hc : numero_do_pedido c = n) by (rewrite Ec; hnum);
      clear Ec; numero_tac
  | |- _ => reflexivity
  end.

Lemma mondelez_header_numero l cp :
  numero_do_pedido (Mondelez.header l cp) = numero_do_pedido cp.
Proof. unfold Mondelez.header. hnum. Qed.

Lemma redebiz_header_numero l cp :
  numero_do_pedido (RedeBiz.header l cp) = numero_do_pedido cp.
Proof. unfold RedeBiz.header. hnum. Qed.

End HeaderFacts.

(** * Invariants of the Mondelez scan *)
Module MondelezScanFacts.
Import Py Re Num Rec Mondelez ReFacts Shapes GroupFacts MondelezShapes HeaderFacts.

Lemma mondelez_pedido_bodies : grp_bodies re_pedido = [(1, digits_re)].
Proof. vm_compute. reflexivity. Qed.

Lemma smart_bodies : grp_bodies re_smart =
  [(1, digits_re); (2, digits_re); (3, Cat (Cat AnyNL (Star false AnyNL)) Eps);
   (4, digits_re); (5, units_re); (6, Cat (plus isdigit) (Cat (Lit 44%N) (Cat (plus isdigit) Eps)));
   (7, Cat (plus (fun x => ((isdigit x || N.eqb x 44%N) || N.eqb x 46%N)%bool)) Eps)].
Proof. vm_compute. reflexivity. Qed.

Lemma format_b_bodies : grp_bodies re_format_b =
  [(1, Cat (Cat (copies 6 (Cls isdigit)) Eps) Eps);
   (2, Cat (plus (fun x => ((isdigit x || N.eqb x 46%N) || N.eqb x 44%N)%bool)) Eps);
   (3, Cat (plus (fun x => ((isdigit x || N.eqb x 46%N) || N.eqb x 44%N)%bool)) Eps);
   (4, Cat (plus (fun x => ((isdigit x || N.eqb x 46%N) || N.eqb x 44%N)%bool)) Eps);
   (5, units_re); (6, digits_re); (7, Cat (Cat AnyNL (Star true AnyNL)) Eps)].
Proof. vm_compute. reflexivity. Qed.

Lemma smart_must : In 5 (must re_smart).
Proof. vm_compute. tauto. Qed.

Lemma format_b_must : In 5 (must re_format_b).
Proof. vm_compute. tauto. Qed.

Lemma digit_num_char x : isdigit x = true -> num_char x = true.
Proof. unfold num_char. intros ->. reflexivity. Qed.

(** The numbers the candidate loop reads are digit strings. *)
Lemma candidate_digits s mo : In mo (finditer_ic true re_pedido s) -> forallb isdigit (group_str mo 1) = true.
Proof.
  intros H. apply finditer_sound in H as [Hi H].
  destruct mo as [inp a b cs]; simpl in *; subst inp.
  apply (group_chars true s re_pedido a b cs 0 isdigit H).
  rewrite mondelez_pedido_bodies. intros body [E|[]]. inversion E; subst. apply digits_re_consumes.
Qed.

Lemma str_eqb_refl' s : str_eqb s s = true.
Proof. induction s as [|c s IH]; simpl; [reflexivity|]. rewrite N.eqb_refl. exact IH. Qed.

Lemma str_eqb_true s t : str_eqb s t = true -> s = t.
Proof.
  revert t; induction s as [|c s IH]; intros [|d t]; simpl; try discriminate; [reflexivity|].
  intros H. apply andb_true_iff in H as [H1 H2]. apply N.eqb_eq in H1. subst. f_equal. apply IH, H2.
Qed.

Lemma in_embalagens e : In e embalagens -> existsb (str_eqb e) embalagens = true.
Proof. intros H. apply existsb_exists. exists e. split; [exact H | apply str_eqb_refl']. Qed.

Lemma group_some_str mo n v : group mo n = Some v -> group_str mo n = v.
Proof. unfold group_str. intros ->. reflexivity. Qed.

(** A product built from a smart match is well formed. *)
Lemma smart_ok numero l mo : search re_smart l = Some mo -> prod_ok (smart_produto numero mo) = true.
Proof.
  intros H. pose proof H as H0. apply search_sound in H as [Hi H].
  destruct mo as [inp a b cs]; simpl in *; subst inp.
  assert (G : forall n q, (forall body, In (S n, body) (grp_bodies re_smart) -> consumes false q body) ->
                          forallb q (group_str (MObj l a b cs) (S n)) = true)
    by (intros; eapply group_chars; eauto).
  assert (D1 : forallb isdigit (group_str (MObj l a b cs) 1) = true).
  { apply G. rewrite smart_bodies. simpl. intros body [E|[E|[E|[E|[E|[E|[E|[]]]]]]]];
      inversion E; subst; apply digits_re_consumes. }
  assert (D2 : forallb isdigit (group_str (MObj l a b cs) 2) = true).
  { apply G. rewrite smart_bodies. simpl. intros body [E|[E|[E|[E|[E|[E|[E|[]]]]]]]];
      inversion E; subst; apply digits_re_consumes. }
  assert (D4 : forallb num_char (group_str (MObj l a b cs) 4) = true).
  { apply G. rewrite smart_bodies. simpl. intros body [E|[E|[E|[E|[E|[E|[E|[]]]]]]]];
      inversion E; subst. eapply consumes_mono; [exact digit_num_char | apply digits_re_consumes]. }
  assert (D6 : forallb num_char (group_str (MObj l a b cs) 6) = true).
  { apply G. rewrite smart_bodies. simpl. intros body [E|[E|[E|[E|[E|[E|[E|[]]]]]]]];
      inversion E; subst. simpl. unfold num_char.
    repeat split; intros x Hx; simpl in Hx; rewrite ?Hx; try reflexivity.
    apply N.eqb_eq in Hx; subst; reflexivity. }
  assert (U : In (group_str (MObj l a b cs) 5) embalagens).
  { apply (group_units l re_smart a b cs 4 H smart_must). rewrite smart_bodies. simpl.
    intros body [E|[E|[E|[E|[E|[E|[E|[]]]]]]]]; inversion E; reflexivity. }
  unfold smart_produto. destruct (smart_ids _ _) as [e c] eqn:Ei.
  assert (C : forallb isdigit c = true).
  { unfold smart_ids in Ei.
    destruct (group (MObj l a b cs) 2) as [n2|] eqn:E2.
    - apply group_some_str in E2. rewrite E2 in D2.
      repeat (match type of Ei with context [if ?b then _ else _] => destruct b end);
        inversion Ei; subst; auto.
    - repeat (match type of Ei with context [if ?b then _ else _] => destruct b end);
        inversion Ei; subst; auto. }
  unfold prod_ok; cbn [codigo_fornecedor valor_unit quantidade embalagem].
  rewrite C, D6, D4, (in_embalagens _ U). reflexivity.
Qed.

Lemma format_b_ok numero l mo : search re_format_b l = Some mo -> prod_ok (format_b_produto numero mo) = true.
Proof.
  intros H. apply search_sound in H as [Hi H].
  destruct mo as [inp a b cs]; simpl in *; subst inp.
  assert (G : forall n q, (forall body, In (S n, body) (grp_bodies re_format_b) -> consumes false q body) ->
                          forallb q (group_str (MObj l a b cs) (S n)) = true)
    by (intros; eapply group_chars; eauto).
  assert (NC : consumes false num_char
                 (Cat (plus (fun x => ((isdigit x || N.eqb x 46%N) || N.eqb x 44%N)%bool)) Eps)).
  { simpl. unfold num_char. repeat split; intros x Hx; simpl in Hx;
      destruct (isdigit x); simpl in *; auto; destruct (N.eqb x 46%N), (N.eqb x 44%N); simpl in *;
      auto; discriminate. }
  assert (D1 : forallb isdigit (group_str (MObj l a b cs) 1) = true).
  { apply G. rewrite format_b_bodies. simpl. intros body [E|[E|[E|[E|[E|[E|[E|[]]]]]]]];
      inversion E; subst. simpl. repeat split; intros x Hx; exact Hx. }
  assert (D3 : forallb num_char (group_str (MObj l a b cs) 3) = true).
  { apply G. rewrite format_b_bodies. simpl. intros body [E|[E|[E|[E|[E|[E|[E|[]]]]]]]];
      inversion E; subst. exact NC. }
  assert (D4 : forallb num_char (group_str (MObj l a b cs) 4) = true).
  { apply G. rewrite format_b_bodies. simpl. intros body [E|[E|[E|[E|[E|[E|[E|[]]]]]]]];
      inversion E; subst. exact NC. }
  assert (U : In (group_str (MObj l a b cs) 5) embalagens).
  { apply (group_units l re_format_b a b cs 4 H format_b_must). rewrite format_b_bodies. simpl.
    intros body [E|[E|[E|[E|[E|[E|[E|[]]]]]]]]; inversion E; reflexivity. }
  unfold format_b_produto, prod_ok; cbn [codigo_fornecedor valor_unit quantidade embalagem].
  rewrite D1, D3, D4, (in_embalagens _ U). reflexivity.
Qed.

(** A continuation line only sets the EAN or extends the description. *)
Lemma continuation_cases l pr :
  continuation l pr = pr \/ (exists v, continuation l pr = set_ean pr v)
  \/ (exists v, continuation l pr = set_descricao pr v).
Proof.
  unfold continuation. cbv zeta.
  destruct (has "EAN" l); [destruct (search re_ean l); eauto|].
  repeat (match goal with |- context [if ?b then _ else _] => destruct b end); eauto.
Qed.

Lemma continuation_keeps l pr :
  prod_ok (continuation l pr) = prod_ok pr
  /\ p_numero_do_pedido (continuation l pr) = p_numero_do_pedido pr.
Proof.
  destruct (continuation_cases l pr) as [->|[[v ->]|[v ->]]]; destruct pr; split; reflexivity.
Qed.

Lemma adj_distinct_snoc l a b :
  adj_distinct ((l ++ [a]) ++ [b]) = adj_distinct (l ++ [a]) && negb (str_eqb a b).
Proof.
  induction l as [|x l IH]; [simpl; rewrite andb_true_r; reflexivity|].
  destruct l as [|y l]; [simpl; rewrite !andb_true_r; reflexivity|].
  change (adj_distinct (x :: ((y :: l) ++ [a]) ++ [b])
          = adj_distinct (x :: (y :: l) ++ [a]) && negb (str_eqb a b)).
  cbn [app adj_distinct] in *. rewrite IH. apply andb_assoc.
Qed.

Lemma in_map_snoc (n : str) (l : list pedido) x :
  In n (map numero_do_pedido l) -> In n (map numero_do_pedido (l ++ [x])).
Proof. rewrite map_app. intros H. apply in_or_app. left; exact H. Qed.

Lemma order_matches_inv ms st :
  (forall mo, In mo ms -> forallb isdigit (group_str mo 1) = true) -> inv st -> inv (order_matches ms st).
Proof.
  revert st; induction ms as [|mo ms IH]; intros st D I; simpl; [exact I|].
  destruct (valid_candidate (group_str mo 1)) eqn:V; [|apply IH; auto; intros; apply D; right; auto].
  assert (N : numero_ok (group_str mo 1) = true).
  { unfold numero_ok. rewrite V, D by (left; reflexivity). reflexivity. }
  pose proof I as I0. destruct I as (I1 & I2 & I3 & I4).
  destruct (current_pedido st) as [cp|] eqn:C.
  - destruct (negb (str_eqb (numero_do_pedido cp) (group_str mo 1))) eqn:Dif;
      [|apply IH; [intros; apply D; right; auto | exact I0]].
    unfold inv, orders, products in *; rewrite C in *; simpl in *.
    split; [discriminate|]. split; [|split].
    + rewrite map_app, map_app. simpl. rewrite map_app in I2. simpl in I2.
      rewrite adj_distinct_snoc, I2, Dif. reflexivity.
    + apply Forall_app; split; [exact I3 | constructor; [exact N | constructor]].
    + eapply Forall_impl; [|exact I4]. intros pr [P M]. split; [exact P|]. apply in_map_snoc. exact M.
  - unfold inv, orders, products in *; rewrite C in *; simpl in *.
    rewrite (I1 eq_refl) in *. simpl in *.
    split; [discriminate|]. split; [reflexivity|]. split; [constructor; [exact N | constructor]|].
    eapply Forall_impl; [|exact I4]. intros pr [P M]. contradiction.
Qed.
Lemma products_step_inv st cp cp' l :
  inv st -> current_pedido st = Some cp -> numero_do_pedido cp' = numero_do_pedido cp ->
  inv (products_step st cp' l).
Proof.
  intros (I1 & I2 & I3 & I4) C Ncp.
  assert (O : forall cur prods b,
             Forall (fun pr => prod_ok pr = true /\ In (p_numero_do_pedido pr) (map numero_do_pedido (orders st)))
                    (prods ++ opt_list cur) ->
             inv (State (pedidos st) prods (Some cp') cur b)).
  { intros cur prods b F. unfold inv, orders, products in *; rewrite C in *; simpl in *.
    rewrite map_app in *; simpl in *; rewrite Ncp.
    split; [discriminate|]. split; [exact I2|]. split.
    - rewrite Forall_app in *. destruct I3 as [I3a I3b]. split; [exact I3a|].
      inversion I3b; subst. constructor; [rewrite Ncp; assumption | constructor].
    - exact F. }
  assert (Nw : forall pr, prod_ok pr = true -> p_numero_do_pedido pr = numero_do_pedido cp' ->
                 prod_ok pr = true /\ In (p_numero_do_pedido pr) (map numero_do_pedido (orders st))).
  { intros pr P E. split; [exact P|]. rewrite E, Ncp. unfold orders. rewrite C, map_app.
    apply in_or_app. right. left. reflexivity. }
  unfold products in I4.
  unfold products_step.
  destruct (section_start l); [apply O; exact I4|].
  destruct (in_produtos_section st && section_end l); [apply O; rewrite app_nil_r; exact I4|].
  destruct (in_produtos_section st && repeated_header l); [apply O; exact I4|].
  destruct (search re_smart (clean_garbled_line l)) as [mo|] eqn:Sm.
  { apply O. apply Forall_app; split; [exact I4|]. cbn [opt_list]. constructor; [|constructor].
    apply Nw; [eapply smart_ok; exact Sm | unfold smart_produto; destruct (smart_ids _ _); reflexivity]. }
  destruct (search re_format_b (clean_garbled_line l)) as [mo|] eqn:Fb.
  { apply O. apply Forall_app; split; [exact I4|]. cbn [opt_list]. constructor; [|constructor].
    apply Nw; [eapply format_b_ok; exact Fb | reflexivity]. }
  destruct (current_produto st) as [pr|] eqn:Cp.
  - destruct (in_produtos_section st); apply O; [|exact I4].
    simpl in *. apply Forall_app in I4 as [I4a I4b]. apply Forall_app; split; [exact I4a|].
    inversion I4b; subst. constructor; [|constructor].
    destruct (continuation_keeps l pr) as [K1 K2]. rewrite K1, K2. assumption.
  - apply O. exact I4.
Qed.

Lemma step_inv st l : inv st -> inv (step st l).
Proof.
  intros I. unfold step.
  pose proof (order_matches_inv (finditer_ic true re_pedido (normalize l)) st
                (fun mo H => candidate_digits _ mo H) I) as I'.
  destruct (current_pedido (order_matches _ st)) as [cp|] eqn:C; [|exact I'].
  eapply products_step_inv; [exact I' | exact C | apply mondelez_header_numero].
Qed.

Lemma scan_inv linhas : inv (fold_left step linhas init).
Proof.
  assert (I0 : inv init) by (repeat split; constructor).
  revert I0. generalize init. induction linhas as [|l r IH]; intros st I; simpl; [exact I|].
  apply IH, step_inv, I.
Qed.

End MondelezScanFacts.



(** * Numbers made of digits, [,] and [.] *)
Module ConvFacts.
Import Py Num Shapes.


Lemma forallb_rev (P : char -> bool) s : forallb P (rev s) = forallb P s.
Proof.
  induction s as [|c s IH]; simpl; [reflexivity|].
  rewrite forallb_app, IH. simpl. rewrite andb_true_r, andb_comm. reflexivity.
Qed.

Lemma dig_dot_nospace c : dig_dot c = true -> isspace c = false.
Proof.
  unfold dig_dot, isdigit, isspace, in_range. intros H.
  apply orb_true_iff in H as [H|H].
  - apply andb_true_iff in H as [H1 H2]. apply N.leb_le in H1, H2.
    repeat (apply orb_false_iff; split); try (apply andb_false_iff; left; apply N.leb_gt; lia);
      try (apply andb_false_iff; right; apply N.leb_gt; lia); apply N.eqb_neq; lia.
  - apply N.eqb_eq in H. subst. reflexivity.
Qed.

Lemma lstrip_id s : forallb dig_dot s = true -> lstrip s = s.
Proof.
  destruct s as [|c r]; [reflexivity|]. simpl. intros H. apply andb_true_iff in H as [H _].
  rewrite (dig_dot_nospace _ H). reflexivity.
Qed.

Lemma strip_id s : forallb dig_dot s = true -> strip s = s.
Proof.
  intros H. unfold strip, rstrip. rewrite (lstrip_id _ H), lstrip_id, rev_involutive; [reflexivity|].
  rewrite forallb_rev. exact H.
Qed.

Lemma lower_id s : forallb dig_dot s = true -> lower_str s = s.
Proof.
  intros H. unfold lower_str. rewrite <- (map_id s) at 2. apply map_ext_in.
  intros c Hc. rewrite forallb_forall in H. specialize (H c Hc).
  unfold dig_dot, isdigit, lower_char, in_range in *.
  apply orb_true_iff in H as [H|H].
  - apply andb_true_iff in H as [H1 H2]. apply N.leb_le in H1, H2.
    replace ((65 <=? c) && (c <=? 90))%N with false by (symmetry; apply andb_false_iff; first [left; apply N.leb_gt; lia | right; apply N.leb_gt; lia]).
    replace ((192 <=? c) && (c <=? 214))%N with false by (symmetry; apply andb_false_iff; first [left; apply N.leb_gt; lia | right; apply N.leb_gt; lia]).
    replace ((216 <=? c) && (c <=? 222))%N with false by (symmetry; apply andb_false_iff; first [left; apply N.leb_gt; lia | right; apply N.leb_gt; lia]).
    reflexivity.
  - apply N.eqb_eq in H. subst. reflexivity.
Qed.

Lemma str_eqb_head s c w : forallb dig_dot s = true -> dig_dot c = false -> str_eqb s (c :: w) = false.
Proof.
  destruct s as [|d s]; [reflexivity|]. simpl. intros H Hc.
  apply andb_true_iff in H as [H _]. destruct (N.eqb_spec d c); [subst; congruence|reflexivity].
Qed.


(** The int64 conversion of a digit string is its decimal value. *)
Lemma to_int64_digits s : forallb isdigit s = true ->
  to_int64 s = digits_value (map (fun c => (c - 48)%N) s).
Proof.
  destruct s as [|c r]; [reflexivity|]. intros H. unfold to_int64, all_digits. rewrite H. reflexivity.
Qed.

End ConvFacts.

(** * What the Mondelez scan outputs *)
Module MondelezProductFacts.
Import Py Re Num Rec Mondelez Shapes MondelezShapes MondelezScanFacts ConvFacts.

Lemma scan_orders_products linhas :
  scan linhas = (orders (fold_left step linhas init), products (fold_left step linhas init)).
Proof. reflexivity. Qed.

Lemma not_year n : negb (existsb (str_eqb n) years) = true -> ~ In n years.
Proof.
  intros H Hin. apply negb_true_iff in H. rewrite <- not_true_iff_false in H. apply H.
  apply existsb_exists. exists n. split; [exact Hin | apply str_eqb_refl'].
Qed.

(** Mondelez order numbers, on ASCII input (where Python's [\d] is [0-9]):
    no two consecutive orders share a number, and every number is a string
    of at least three ASCII digits other than 2023, 2024 and 2025. *)
Theorem mondelez_order_numbers linhas :
  Forall (fun l => forallb (fun c => N.ltb c 128) l = true) linhas ->
  adj_distinct (map numero_do_pedido (fst (scan linhas))) = true
  /\ Forall (fun p => 2 < List.length (numero_do_pedido p) /\ ~ In (numero_do_pedido p) years
                      /\ forallb isdigit (numero_do_pedido p) = true) (fst (scan linhas)).
Proof.
  intros _. rewrite scan_orders_products. simpl.
  destruct (scan_inv linhas) as (_ & I2 & I3 & _). split; [exact I2|].
  eapply Forall_impl; [|exact I3]. intros p H. unfold numero_ok, valid_candidate in H.
  apply andb_true_iff in H as [H D]. apply andb_true_iff in H as [L Y].
  split; [apply Nat.ltb_lt; exact L|]. split; [apply not_year; exact Y | exact D].
Qed.

(** Every Mondelez product names the number of an order of the output. *)
Theorem mondelez_products_have_orders linhas :
  Forall (fun pr => In (p_numero_do_pedido pr) (map numero_do_pedido (fst (scan linhas))))
         (snd (scan linhas)).
Proof.
  rewrite scan_orders_products. simpl.
  destruct (scan_inv linhas) as (_ & _ & _ & I4).
  eapply Forall_impl; [|exact I4]. intros pr [_ M]. exact M.
Qed.

(** The Mondelez result is empty, the orders table alone, or the orders
    table followed by the products table: a products table never comes
    without the orders it refers to, and no table is empty. *)
Theorem mondelez_process_tables linhas :
  process linhas = []
  \/ (exists peds, peds <> [] /\ process linhas = [TPedidos peds])
  \/ (exists peds rows, peds <> [] /\ rows <> [] /\ process linhas = [TPedidos peds; TProdutos rows]).
Proof.
  unfold process. rewrite scan_orders_products. cbv zeta.
  destruct (scan_inv linhas) as (_ & _ & _ & I4).
  set (st := fold_left step linhas init) in *.
  destruct (products st) as [|pr prs] eqn:E.
  - destruct (orders st) as [|p ps]; [left; reflexivity|]. right; left.
    exists (p :: ps). split; [discriminate | reflexivity].
  - inversion I4 as [|? ? [_ M] _]; subst.
    destruct (orders st) as [|p ps]; [contradiction|]. right; right.
    exists (p :: ps), (map to_row (pr :: prs)). split; [discriminate|]. split; [discriminate | reflexivity].
Qed.


(** Witness: two orders, one of them repeated across a page break, and a
    rejected year. *)
Lemma mondelez_order_numbers_witness :
  let linhas := map u ["Pedido 12345"; "Pedido 2024"; "Pedido 12345"; "Pedido 67890"]%string in
  Forall (fun l => forallb (fun c => N.ltb c 128) l = true) linhas
  /\ map numero_do_pedido (fst (scan linhas)) = [u "12345"; u "67890"]
  /\ adj_distinct (map numero_do_pedido (fst (scan linhas))) = true.
Proof.
  intro linhas.
  assert (H : Forall (fun l => forallb (fun c => N.ltb c 128) l = true) linhas)
    by (repeat constructor).
  split; [exact H|]. split; [vm_compute; reflexivity|].
  exact (proj1 (mondelez_order_numbers linhas H)).
Defined.

End MondelezProductFacts.



(** * Invariants of the RedeBiz scan *)
Module RedeBizScanFacts.
Import Py Re Rec RedeBiz ReFacts Shapes GroupFacts RedeBizShapes HeaderFacts MondelezScanFacts.

Lemma redebiz_pedido_bodies : grp_bodies re_pedido = [(1, Cat (plus (fun x => negb (isspace x))) Eps)].
Proof. vm_compute. reflexivity. Qed.

Lemma numero_nospace l : nospace (match search re_pedido l with Some mo => group_str mo 1 | None => [] end) = true.
Proof.
  destruct (search re_pedido l) as [mo|] eqn:E; [|reflexivity].
  apply search_sound in E as [Hi H]. destruct mo as [inp a b cs]; simpl in *; subst inp.
  apply (group_chars false l re_pedido a b cs 0 (fun c => negb (isspace c)) H).
  rewrite redebiz_pedido_bodies. intros body [E|[]]. inversion E; subst. simpl.
  repeat split; intros x Hx; exact Hx.
Qed.

Lemma step_r_inv st l : r_inv st -> r_inv (step st l).
Proof.
  intros I. pose proof I as (I1 & I2 & I3). unfold step.
  destruct (has "PEDIDO DE COMPRAS" (strip l)).
  - pose proof (numero_nospace (strip l)) as N.
    destruct (current_pedido st) as [cp|] eqn:C.
    + destruct (negb (str_eqb (numero_do_pedido cp) _)) eqn:Dif; [|exact I].
      unfold r_inv, orders in *; rewrite C in *; simpl in *.
      split; [discriminate|]. split.
      * rewrite map_app, map_app. simpl. rewrite map_app in I2. simpl in I2.
        rewrite adj_distinct_snoc, I2, Dif. reflexivity.
      * apply Forall_app; split; [exact I3 | constructor; [exact N | constructor]].
    + unfold r_inv, orders in *; rewrite C in *; simpl in *. rewrite (I1 eq_refl). simpl.
      split; [discriminate|]. split; [reflexivity | constructor; [exact N | constructor]].
  - destruct (current_pedido st) as [cp|] eqn:C; [|exact I].
    assert (K : forall prods cur b, r_inv (State (pedidos st) prods (Some (header (strip l) cp)) cur b)).
    { intros. unfold r_inv, orders in *; rewrite C in *; simpl in *.
      rewrite map_app in *; simpl in *. rewrite redebiz_header_numero.
      split; [discriminate|]. split; [exact I2|].
      rewrite Forall_app in *. destruct I3 as [I3a I3b]. split; [exact I3a|].
      inversion I3b; subst. constructor; [rewrite redebiz_header_numero; assumption | constructor]. }
    cbv zeta. repeat (match goal with |- context [if ?b then _ else _] => destruct b end); apply K.
Qed.

Lemma step_count st l :
  List.length (orders (step st l)) <= List.length (orders st) + (if marker l then 1 else 0).
Proof.
  unfold step, marker.
  destruct (has "PEDIDO DE COMPRAS" (strip l)).
  - destruct (current_pedido st) as [cp|] eqn:C.
    + destruct (negb _); unfold orders; rewrite ?C; simpl; rewrite ?length_app; simpl; lia.
    + unfold orders; rewrite C; simpl; rewrite ?length_app; simpl; lia.
  - destruct (current_pedido st) as [cp|] eqn:C; [|lia].
    cbv zeta. repeat (match goal with |- context [if ?b then _ else _] => destruct b end);
      unfold orders; rewrite C; simpl; rewrite ?length_app; simpl; lia.
Qed.

Lemma fold_r_inv linhas st : r_inv st -> r_inv (fold_left step linhas st).
Proof.
  revert st; induction linhas as [|l r IH]; intros st I; simpl; [exact I|]. apply IH, step_r_inv, I.
Qed.

Lemma fold_count linhas st :
  List.length (orders (fold_left step linhas st))
  <= List.length (orders st) + List.length (filter marker linhas).
Proof.
  revert st; induction linhas as [|l r IH]; intros st; simpl; [lia|].
  specialize (IH (step st l)). pose proof (step_count st l).
  destruct (marker l); simpl; lia.
Qed.

Lemma scan_orders linhas : fst (scan linhas) = orders (fold_left step linhas init).
Proof.
  unfold scan, finish, orders. destruct (current_pedido (fold_left step linhas init)); simpl; rewrite ?app_nil_r; reflexivity.
Qed.

End RedeBizScanFacts.

(** * Order numbers and the lines before the first order *)
Module OrderFacts.
Import Py Re Rec Shapes RedeBizShapes RedeBizScanFacts.

(** RedeBiz order numbers: no two consecutive orders share a number, no
    number contains whitespace, and there are at most as many orders as
    lines holding "PEDIDO DE COMPRAS". *)
Theorem redebiz_order_numbers linhas :
  adj_distinct (map numero_do_pedido (fst (RedeBiz.scan linhas))) = true
  /\ Forall (fun p => nospace (numero_do_pedido p) = true) (fst (RedeBiz.scan linhas))
  /\ List.length (fst (RedeBiz.scan linhas)) <= List.length (filter marker linhas).
Proof.
  rewrite scan_orders.
  assert (I0 : r_inv RedeBiz.init) by (repeat split; constructor).
  destruct (fold_r_inv linhas _ I0) as (_ & I2 & I3).
  split; [exact I2|]. split; [exact I3|].
  pose proof (fold_count linhas RedeBiz.init) as C. simpl in C. exact C.
Qed.

Lemma redebiz_prefix_init pre :
  forallb (fun l => negb (marker l)) pre = true -> fold_left RedeBiz.step pre RedeBiz.init = RedeBiz.init.
Proof.
  induction pre as [|l r IH]; simpl; [reflexivity|]. intros H. apply andb_true_iff in H as [H1 H2].
  unfold marker in H1. unfold RedeBiz.step at 2. apply negb_true_iff in H1. rewrite H1. simpl. exact (IH H2).
Qed.

(** RedeBiz: the lines before the first "PEDIDO DE COMPRAS" line change
    nothing. *)
Theorem redebiz_lines_before_first_order pre rest :
  forallb (fun l => negb (marker l)) pre = true ->
  RedeBiz.scan (pre ++ rest) = RedeBiz.scan rest.
Proof.
  intros H. unfold RedeBiz.scan. rewrite fold_left_app, (redebiz_prefix_init pre H). reflexivity.
Qed.

Lemma redebiz_lines_before_first_order_witness :
  forallb (fun l => negb (marker l)) [u "Comprador JOAO"; u "Pedido 77"] = true
  /\ RedeBiz.scan ([u "Comprador JOAO"; u "Pedido 77"] ++ [u "PEDIDO DE COMPRAS 123"])
     = RedeBiz.scan [u "PEDIDO DE COMPRAS 123"].
Proof.
  assert (H : forallb (fun l => negb (marker l)) [u "Comprador JOAO"; u "Pedido 77"] = true)
    by (vm_compute; reflexivity).
  split; [exact H | exact (redebiz_lines_before_first_order _ _ H)].
Defined.

(** The candidates of a Mondelez line the loop accepts. *)
Lemma order_matches_none ms :
  forallb (fun mo => negb (Mondelez.valid_candidate (group_str mo 1))) ms = true ->
  Mondelez.order_matches ms Mondelez.init = Mondelez.init.
Proof.
  induction ms as [|mo ms IH]; simpl; [reflexivity|]. intros H. apply andb_true_iff in H as [H1 H2].
  apply negb_true_iff in H1. rewrite H1. exact (IH H2).
Qed.

Lemma mondelez_prefix_init pre :
  forallb (fun l => negb (existsb (fun mo => Mondelez.valid_candidate (group_str mo 1))
                                  (finditer_ic true Mondelez.re_pedido (Mondelez.normalize l)))) pre = true ->
  fold_left Mondelez.step pre Mondelez.init = Mondelez.init.
Proof.
  induction pre as [|l r IH]; simpl; [reflexivity|]. intros H. apply andb_true_iff in H as [H1 H2].
  unfold Mondelez.step at 2. rewrite order_matches_none.
  - simpl. exact (IH H2).
  - apply negb_true_iff in H1. rewrite forallb_forall. intros mo Hmo.
    destruct (Mondelez.valid_candidate (group_str mo 1)) eqn:V; [|reflexivity].
    rewrite <- not_true_iff_false in H1. exfalso. apply H1, existsb_exists. exists mo. auto.
Qed.

(** Mondelez: the lines before the first one with an accepted order number
    (at least three digits, not 2023, 2024 or 2025) change nothing. *)
Theorem mondelez_lines_before_first_order pre rest :
  forallb (fun l => negb (existsb (fun mo => Mondelez.valid_candidate (group_str mo 1))
                                  (finditer_ic true Mondelez.re_pedido (Mondelez.normalize l)))) pre = true ->
  Mondelez.scan (pre ++ rest) = Mondelez.scan rest.
Proof.
  intros H. unfold Mondelez.scan. rewrite fold_left_app, (mondelez_prefix_init pre H). reflexivity.
Qed.

Lemma mondelez_lines_before_first_order_witness :
  forallb (fun l => negb (existsb (fun mo => Mondelez.valid_candidate (group_str mo 1))
                                  (finditer_ic true Mondelez.re_pedido (Mondelez.normalize l))))
          [u "Pedido: 2024"; u "Nº 12"] = true
  /\ Mondelez.scan ([u "Pedido: 2024"; u "Nº 12"] ++ [u "Pedido: 4500012345"])
     = Mondelez.scan [u "Pedido: 4500012345"].
Proof.
  assert (H : forallb (fun l => negb (existsb (fun mo => Mondelez.valid_candidate (group_str mo 1))
                                  (finditer_ic true Mondelez.re_pedido (Mondelez.normalize l))))
                      [u "Pedido: 2024"; u "Nº 12"] = true) by (vm_compute; reflexivity).
  split; [exact H | exact (mondelez_lines_before_first_order _ _ H)].
Defined.

End OrderFacts.



(** * The text extractor *)
Module TextFacts.
Import Py Re Rec Text.

(** [_process_text] returns one or two DataFrames, never none. *)
Theorem process_text_tables linhas : 1 <= List.length (process_text linhas) <= 2.
Proof.
  unfold process_text. cbv zeta.
  destruct (info_geral linhas), (produtos linhas); simpl; lia.
Qed.

Lemma produtos_after_stop r l post :
  existsb (fun x => contains x (lower (strip l))) stop_words = true ->
  produtos_after (r ++ l :: post) = produtos_after r.
Proof.
  intros S. induction r as [|x r IH]; cbn [app produtos_after]; cbv zeta.
  - rewrite S. reflexivity.
  - destruct (existsb (fun y => contains y (lower (strip x))) stop_words); [reflexivity|].
    rewrite IH. reflexivity.
Qed.

Lemma after_header_app pre post r : after_header pre = Some r -> after_header (pre ++ post) = Some (r ++ post).
Proof.
  induction pre as [|x pre IH]; simpl; [discriminate|].
  destruct (is_header x); [intros H; inversion H; reflexivity | exact IH].
Qed.

(** Once a line holding a stop word (recebimento, comprador, vendedor,
    obrigatório, ---, pg:) follows the product header, the lines after it
    add no product. *)
Theorem produtos_stop_line pre l post :
  existsb is_header pre = true ->
  existsb (fun x => contains x (lower (strip l))) stop_words = true ->
  produtos (pre ++ l :: post) = produtos pre.
Proof.
  intros Hh S. unfold produtos.
  destruct (after_header pre) as [r|] eqn:E.
  - rewrite (after_header_app _ _ _ E). apply produtos_after_stop, S.
  - exfalso. clear S. induction pre as [|x pre IH]; simpl in *; [discriminate|].
    destruct (is_header x); [discriminate|]. simpl in Hh. exact (IH Hh E).
Qed.

Lemma produtos_stop_line_witness :
  let pre := map u ["Código  Descrição  Qtde"]%string in
  let l := u "Comprador: MARIA" in
  let post := map u ["123  ARROZ BRANCO  2,00  UN  10,00  20,00"]%string in
  existsb is_header pre = true
  /\ existsb (fun x => contains x (lower (strip l))) stop_words = true
  /\ produtos (pre ++ l :: post) = produtos pre.
Proof.
  intros pre l post.
  assert (H1 : existsb is_header pre = true) by (vm_compute; reflexivity).
  assert (H2 : existsb (fun x => contains x (lower (strip l))) stop_words = true) by (vm_compute; reflexivity).
  split; [exact H1|]. split; [exact H2|]. exact (produtos_stop_line pre l post H1 H2).
Defined.

Lemma produto_line_fields linha p : produto_line linha = Some p ->
  2 <= tprod_len p
  /\ (forall c, t_codigo p = Some c -> py_isdigit c = true)
  /\ (forall b, t_codigo_barras p = Some b -> py_isdigit b = true /\ 12 <= List.length b).
Proof.
  unfold produto_line. cbv zeta.
  destruct (Nat.leb 3 _); [|discriminate].
  destruct (Nat.leb 2 (tprod_len (mk_produto (re_split re_2sp linha)))) eqn:L; [|discriminate].
  intros H. inversion H; subst p; clear H.
  split; [apply Nat.leb_le, L|]. clear L.
  unfold mk_produto.
  set (partes := re_split re_2sp linha).
  destruct (filter is_descricao partes) as [|d ds]; destruct (Nat.leb 2 (List.length (filter is_valor partes)));
    cbn [t_codigo t_codigo_barras]; (split;
    [ destruct partes as [|p0 r]; [discriminate|]; destruct (py_isdigit p0) eqn:D; [|discriminate];
      intros c Hc; inversion Hc; subst; exact D
    | intros b Hb; apply find_some in Hb as [_ Hb]; unfold is_codigo_barras in Hb;
      apply andb_true_iff in Hb as [B1 B2]; split; [exact B1 | apply Nat.leb_le, B2] ]).
Qed.

Lemma produtos_after_fields ls :
  Forall (fun p => exists linha, produto_line linha = Some p) (produtos_after ls).
Proof.
  induction ls as [|l r IH]; cbn [produtos_after]; cbv zeta; [constructor|].
  destruct (existsb _ stop_words); [constructor|].
  destruct (negb (truthy (strip l)) || _); [exact IH|].
  apply Forall_app; split; [|exact IH].
  destruct (produto_line (strip l)) eqn:E; constructor; [|constructor]. eexists; exact E.
Qed.

(** Every product of the text extractor has at least two of its eight
    fields set; its [Código], when set, is a digit string, and its
    [Código Barras], when set, a digit string of at least twelve
    characters. *)
Theorem produtos_fields linhas :
  Forall (fun p => 2 <= tprod_len p
                   /\ (forall c, t_codigo p = Some c -> py_isdigit c = true)
                   /\ (forall b, t_codigo_barras p = Some b -> py_isdigit b = true /\ 12 <= List.length b))
         (produtos linhas).
Proof.
  unfold produtos. destruct (after_header linhas) as [r|]; [|constructor].
  eapply Forall_impl; [|apply produtos_after_fields]. intros p (linha & E).
  exact (produto_line_fields _ _ E).
Qed.

Lemma pad_length mc row : List.length (pad mc row) = mc.
Proof.
  unfold pad. rewrite length_firstn, length_app, repeat_length. lia.
Qed.

Lemma unique_headers_length hs counts : List.length (unique_headers hs counts) = List.length hs.
Proof.
  revert counts; induction hs as [|h r IH]; intros counts; simpl; [reflexivity|].
  destruct (count_of h counts); simpl; rewrite IH; reflexivity.
Qed.

Lemma dados_genericos_fields linhas : Forall (fun row => 3 <= List.length row) (dados_genericos linhas).
Proof.
  unfold dados_genericos. induction linhas as [|l r IH]; cbn [flat_map]; [constructor|].
  apply Forall_app; split; [|exact IH].
  destruct (negb (truthy (strip l)) || _); [constructor|].
  destruct (Nat.leb 3 (List.length (re_split re_2sp (strip l)))) eqn:E; [|constructor]. constructor; [apply Nat.leb_le, E | constructor].
Qed.

Lemma max_cols_ge rows row : In row rows -> List.length row <= max_cols rows.
Proof.
  unfold max_cols.
  assert (G : forall l acc, acc <= fold_left Nat.max l acc) by
    (induction l as [|x l IH]; intros acc; simpl; [lia | specialize (IH (Nat.max acc x)); lia]).
  assert (M : forall l acc x, In x l -> x <= fold_left Nat.max l acc).
  { induction l as [|y l IH]; intros acc x H; simpl in *; [contradiction|].
    destruct H as [<-|H]; [specialize (G l (Nat.max acc y)); lia | apply IH, H]. }
  intros H. apply M, in_map, H.
Qed.

(** The generic fallback table is rectangular: every data row has as many
    cells as there are column names, and there are at least three columns
    and at least one data row. *)
Theorem fallback_rectangular linhas headers rows :
  fallback linhas = TGeneric headers rows ->
  Forall (fun row => List.length row = List.length headers) rows
  /\ 3 <= List.length headers /\ rows <> [].
Proof.
  unfold fallback. cbv zeta.
  pose proof (dados_genericos_fields linhas) as F.
  destruct (dados_genericos linhas) as [|r0 [|r1 rs]] eqn:E; simpl; try discriminate.
  intros H. inversion H as [[Hh Hr]]; clear H.
  set (mc := max_cols (r0 :: r1 :: rs)) in *.
  assert (Lh : List.length (if distinctb (pad mc r0) then pad mc r0 else unique_headers (pad mc r0) [])
               = mc).
  { destruct (distinctb _); [|rewrite unique_headers_length]; apply pad_length. }
  rewrite Lh. split; [|split].
  - constructor; [apply pad_length|]. apply Forall_forall. intros x Hx.
    apply in_map_iff in Hx as (y & <- & _). apply pad_length.
  - inversion F as [|? ? F0 _]; subst. pose proof (max_cols_ge (r0 :: r1 :: rs) r0 (or_introl eq_refl)).
    fold mc in H. lia.
  - discriminate.
Qed.

Lemma fallback_rectangular_witness :
  let linhas := map u ["Item  Qtd  Valor"; "Parafuso  10  2,50"; "Porca  4  1,00  extra"]%string in
  let headers := match fallback linhas with TGeneric h _ => h | _ => [] end in
  let rows := match fallback linhas with TGeneric _ r => r | _ => [] end in
  fallback linhas = TGeneric headers rows
  /\ (Forall (fun row => List.length row = List.length headers) rows
      /\ 3 <= List.length headers /\ rows <> []).
Proof.
  intros linhas headers rows.
  assert (H : fallback linhas = TGeneric headers rows) by (vm_compute; reflexivity).
  split; [exact H | exact (fallback_rectangular linhas headers rows H)].
Defined.

End TextFacts.



(** * The page layout of [_extract_text_custom] *)
Module LayoutFacts.
Import Py Layout LayoutShapes Permutation.

Section Lines.
Variable K : Type.
Variable lt : K -> K -> bool.
Variable near : K -> K -> bool.

Lemma insert_by_perm key (w : word K) l : Permutation (insert_by K lt key w l) (w :: l).
Proof.
  induction l as [|y r IH]; simpl; [reflexivity|].
  destruct (lt (key w) (key y)); [reflexivity|].
  rewrite IH. apply perm_swap.
Qed.

Lemma sort_by_perm key (l : list (word K)) : Permutation (sort_by K lt key l) l.
Proof.
  unfold sort_by.
  assert (G : forall acc, Permutation (fold_left (fun acc w => insert_by K lt key w acc) l acc) (acc ++ l)).
  { induction l as [|w r IH]; intros acc; simpl; [rewrite app_nil_r; reflexivity|].
    rewrite IH, insert_by_perm. simpl. apply Permutation_cons_app. reflexivity. }
  apply G.
Qed.

Lemma cluster_concat (ws cur : list (word K)) c :
  List.concat (cluster K near ws cur c) = cur ++ ws /\ Forall (fun line => line <> []) (cluster K near ws cur c)
  \/ (cur = [] /\ ws = [] /\ cluster K near ws cur c = []).
Proof.
  revert cur c; induction ws as [|w r IH]; intros cur c; simpl.
  - destruct cur as [|x cur]; [right; auto|left]. simpl. split; [reflexivity|]. constructor; [discriminate|constructor].
  - left. destruct (near (top K w) c).
    + destruct (IH (cur ++ [w]) c) as [[E F]|(E & _)]; [|destruct cur; discriminate].
      rewrite E, <- app_assoc. auto.
    + destruct (IH [w] (top K w)) as [[E F]|(E & _)]; [|discriminate].
      destruct cur as [|x cur]; simpl; rewrite ?List.concat_app; simpl; rewrite ?app_nil_r, E; [auto|].
      split; [rewrite <- ?app_assoc; reflexivity|]. constructor; [discriminate|exact F].
Qed.

Lemma cluster_lines (ws cur : list (word K)) c :
  (exists f rest, cur = f :: rest /\ top K f = c /\ Forall (fun w => near (top K w) c = true) rest) ->
  Forall (line_ok K near) (cluster K near ws cur c).
Proof.
  revert cur c; induction ws as [|w r IH]; intros cur c (f & rest & -> & Ef & F); simpl.
  - constructor; [|constructor]. simpl. rewrite Ef. exact F.
  - destruct (near (top K w) c) eqn:N.
    + apply IH. exists f, (rest ++ [w]). split; [reflexivity|]. split; [exact Ef|].
      apply Forall_app. auto.
    + constructor; [simpl; rewrite Ef; exact F|]. apply IH. exists w, []. auto.
Qed.

Lemma cluster_start w0 (r0 : list (word K)) :
  cluster K near (w0 :: r0) [] (top K w0) = cluster K near r0 [w0] (top K w0).
Proof. simpl. destruct (near _ _); reflexivity. Qed.

End Lines.

(** [_extract_text_custom] neither drops nor repeats a word: the page text
    is the lines joined by newlines, each line the words of one nonempty
    group joined by spaces in the order of [x0], and the groups together
    are a rearrangement of the words of the page.  In each group, every
    word after the first lies within the tolerance of the first one's
    [top]. *)
Theorem extract_text_custom_words K (lt near : K -> K -> bool) (ws : list (word K)) :
  exists lines,
    extract_text_custom lt near ws = join [10%N] (map (line_str K lt) lines)
    /\ Forall (fun line => line <> []) lines
    /\ Permutation (List.concat lines) ws
    /\ Forall (fun line => Permutation (sort_by K lt (x0 K) line) line) lines
    /\ Forall (line_ok K near) lines.
Proof.
  destruct ws as [|w r]; [exists []; simpl; repeat split; constructor|].
  unfold extract_text_custom.
  pose proof (sort_by_perm K lt (top K) (w :: r)) as P.
  destruct (sort_by K lt (top K) (w :: r)) as [|w0 r0] eqn:E.
  - apply Permutation_nil in P. discriminate.
  - destruct (cluster_concat K near (w0 :: r0) [] (top K w0)) as [[C F]|(_ & H & _)]; [|discriminate].
    exists (cluster K near (w0 :: r0) [] (top K w0)). repeat split; [exact F| | |].
    + rewrite C. exact P.
    + apply Forall_forall. intros; apply sort_by_perm.
    + rewrite cluster_start. apply cluster_lines. exists w0, []. auto.
Qed.

End LayoutFacts.



(** * The garbled-line reconstruction *)
Module GarbledFacts.
Import Py Re Mondelez ReFacts Shapes GroupFacts GarbledShapes.

Lemma re_digits_eq : re_digits = digits_re.
Proof. vm_compute. reflexivity. Qed.

Lemma re_desc_word_eq :
  re_desc_word = Cat WordB (Cat (Cat (Cat (Cls az) (Cat (Cls az) (Cat (Cls az) Eps))) (Star true (Cls az))) (Cat WordB Eps)).
Proof. vm_compute. reflexivity. Qed.

Lemma findall0_chars r s q : consumes false q r -> Forall (fun w => forallb q w = true) (findall0 r s).
Proof.
  intros C. unfold findall0, finditer, finditer_ic. apply Forall_forall. intros w Hw.
  apply in_map_iff in Hw as (mo & <- & Hin).
  apply finditer_sound in Hin as (Ei & S).
  unfold group_str, group. rewrite Ei. apply chars_ok_slice. exact (sem_consumes _ _ _ _ _ _ _ _ S C).
Qed.

Lemma numbers_digits l : Forall (fun w => forallb isdigit w = true) (numbers l).
Proof. unfold numbers. apply findall0_chars. rewrite re_digits_eq. apply digits_re_consumes. Qed.

Lemma desc_words_letters l : Forall (fun w => forallb az w = true) (desc_words l).
Proof.
  unfold desc_words. apply findall0_chars. rewrite re_desc_word_eq.
  simpl; repeat split; intros x H; exact H.
Qed.

Lemma forallb_join q sep ws :
  forallb q sep = true -> Forall (fun w => forallb q w = true) ws -> forallb q (join sep ws) = true.
Proof.
  intros Hs. induction 1 as [|w ws Hw F IH]; [reflexivity|].
  destruct ws as [|w' ws]; [exact Hw|].
  change (join sep (w :: w' :: ws)) with (w ++ sep ++ join sep (w' :: ws)).
  rewrite !forallb_app, Hw, Hs, IH. reflexivity.
Qed.

Lemma classify_ok acc num : forallb isdigit num = true -> acc_ok acc -> acc_ok (classify acc num).
Proof.
  destruct acc as [[ean code] qty]. intros D (He & Hc & Hq). unfold classify.
  destruct (Nat.eqb (List.length num) 13 && negb (truthy ean)) eqn:E1.
  { apply andb_true_iff in E1 as [E1 _]. apply Nat.eqb_eq in E1. simpl. split; [right; auto|auto]. }
  destruct (Nat.eqb (List.length num) 6 && negb (truthy code)) eqn:E2.
  { apply andb_true_iff in E2 as [E2 _]. apply Nat.eqb_eq in E2. simpl. split; [auto|split; [right; auto|auto]]. }
  destruct (Nat.eqb (List.length num) 2 && negb (truthy qty)) eqn:E3.
  { apply andb_true_iff in E3 as [E3 _]. apply Nat.eqb_eq in E3. simpl. split; [auto|split; [auto|right; auto]]. }
  destruct (Nat.eqb (List.length num) 1 && negb (truthy qty) && (0 <? int_of_digit num)%Z) eqn:E4.
  - apply andb_true_iff in E4 as [E4 Z]. apply andb_true_iff in E4 as [E4 _]. apply Nat.eqb_eq in E4.
    simpl. split; [auto|split; [auto|right]]. split; [exact D|right; split; [exact E4|]].
    intros ->. discriminate Z.
  - simpl. auto.
Qed.

Lemma classify_fold nums acc :
  Forall (fun w => forallb isdigit w = true) nums -> acc_ok acc -> acc_ok (fold_left classify nums acc).
Proof.
  intros F; revert acc; induction F as [|n r Hn F IH]; intros acc A; simpl; [exact A|].
  apply IH, classify_ok; assumption.
Qed.

(** [_clean_garbled_line] either returns its line unchanged, or builds a
    row that starts with a 13-digit EAN, a 6-digit code, a nonempty
    description of upper-case letters A to Z and spaces, and a quantity of
    two digits or one nonzero digit, followed by the fixed cells
    [UN 1 UN 0,00 0,00]; the three last cells are either the placeholders
    [10,00 10,00 100,00] or two values, the first of them repeated. *)
Theorem clean_garbled_line_shape l :
  clean_garbled_line l = l
  \/ exists ean code desc qty rest,
    clean_garbled_line l
      = ean ++ u " " ++ code ++ u " " ++ desc ++ u " " ++ qty ++ u " UN 1 UN 0,00 0,00 " ++ rest
    /\ List.length ean = 13 /\ forallb isdigit ean = true
    /\ List.length code = 6 /\ forallb isdigit code = true
    /\ desc <> [] /\ forallb (fun c => in_range 65%N 90%N c || N.eqb c 32) desc = true
    /\ forallb isdigit qty = true /\ (List.length qty = 2 \/ (List.length qty = 1 /\ qty <> u "0"))
    /\ (rest = u "10,00 10,00 100,00" \/ exists v1 v2, rest = v2 ++ u " " ++ v2 ++ u " " ++ v1).
Proof.
  pose proof (classify_fold (numbers l) ([], [], []) (numbers_digits l)) as A.
  pose proof (desc_words_letters l) as W.
  unfold clean_garbled_line.
  destruct (fold_left classify (numbers l) ([], [], [])) as [[ean code] qty].
  cbv beta iota zeta.
  destruct A as (He & Hc & Hq); [simpl; unfold slot_ok, qty_ok; auto|].
  set (desc := match desc_words l with [] => [] | _ => join (u " ") (desc_words l) end).
  assert (Hd : forallb (fun c => in_range 65%N 90%N c || N.eqb c 32) desc = true).
  { unfold desc. destruct (desc_words l) as [|w ws]; [reflexivity|].
    apply forallb_join; [reflexivity|]. revert W. apply Forall_impl.
    intros w0 Hw. apply forallb_forall. intros x Hx. eapply forallb_forall in Hw; [|exact Hx].
    unfold az in Hw. simpl in Hw. rewrite Hw. reflexivity. }
  destruct (truthy ean && truthy code && truthy desc && truthy qty) eqn:T; [right|left; reflexivity].
  apply andb_true_iff in T as [T Tq]. apply andb_true_iff in T as [T Td].
  apply andb_true_iff in T as [Te Tc].
  destruct He as [->|[He1 He2]]; [discriminate|]. destruct Hc as [->|[Hc1 Hc2]]; [discriminate|].
  destruct Hq as [->|[Hq1 Hq2]]; [discriminate|].
  assert (Dn : desc <> []) by (intros E; rewrite E in Td; discriminate).
  match goal with |- context [if Nat.leb 2 (List.length ?v) then _ else _] => set (vs := v) end.
  destruct (Nat.leb 2 (List.length vs)).
  - exists ean, code, desc, qty, (nth_str vs (List.length vs - 2) ++ u " "
        ++ nth_str vs (List.length vs - 2) ++ u " " ++ nth_str vs (List.length vs - 1)).
    split; [reflexivity|]. do 8 (split; [auto|]). right. eexists _, _. reflexivity.
  - exists ean, code, desc, qty, (u "10,00 10,00 100,00").
    split; [reflexivity|]. do 8 (split; [auto|]). left. reflexivity.
Qed.

End GarbledFacts.



(** * The value [_conv_num] gives to a decimal number *)
Module DecimalFacts.
Import Py Num Shapes ConvFacts.

Lemma replace_char_del c : forall fuel s, List.length s <= fuel ->
  replace_aux fuel [c] [] s = filter (fun x : char => negb (N.eqb c x)) s.
Proof.
  induction fuel as [|f IH]; intros s L.
  - destruct s; [reflexivity | simpl in L; lia].
  - destruct s as [|x r]; [reflexivity|]. simpl in L |- *. rewrite andb_true_r.
    destruct (N.eqb c x); simpl; rewrite IH by lia; reflexivity.
Qed.

Lemma replace_char_map c d : forall fuel s, List.length s <= fuel ->
  replace_aux fuel [c] [d] s = map (fun x : char => if N.eqb c x then d else x) s.
Proof.
  induction fuel as [|f IH]; intros s L.
  - destruct s; [reflexivity | simpl in L; lia].
  - destruct s as [|x r]; [reflexivity|]. simpl in L |- *. rewrite andb_true_r.
    destruct (N.eqb c x); simpl; rewrite IH by lia; reflexivity.
Qed.

Lemma replace_dot s : replace (u ".") (u "") s = filter (fun x : char => negb (N.eqb 46 x)) s.
Proof. apply replace_char_del. apply Nat.le_refl. Qed.

Lemma replace_comma s : replace (u ",") (u ".") s = map (fun x : char => if N.eqb 44 x then 46%N else x) s.
Proof. apply replace_char_map. apply Nat.le_refl. Qed.

Lemma digits_aux_app i r acc : forallb isdigit i = true ->
  digits_aux (i ++ r) acc = digits_aux r (acc ++ map dig i).
Proof.
  revert acc; induction i as [|c i IH]; intros acc H; simpl; [rewrite app_nil_r; reflexivity|].
  simpl in H. apply andb_true_iff in H as [Hc H]. rewrite Hc, IH by exact H.
  rewrite <- app_assoc. reflexivity.
Qed.

Lemma p_number_decimal i f : forallb isdigit i = true -> forallb isdigit f = true ->
  p_number (i ++ 46%N :: f)
  = if Nat.eqb (List.length i) 0 && Nat.eqb (List.length f) 0 then None
    else Some (digits_value (map dig i ++ map dig f), (- Z.of_nat (List.length f))%Z).
Proof.
  intros Hi Hf. unfold p_number.
  assert (Fp : digitpart f = match f with [] => None | _ :: _ => Some (map dig f, []) end).
  { destruct f as [|c f']; [reflexivity|].
    unfold digitpart. pose proof Hf as H0. simpl in H0. apply andb_true_iff in H0 as [Hc _].
    rewrite Hc. rewrite <- (app_nil_r (c :: f')) at 1.
    rewrite (digits_aux_app (c :: f') [] [] Hf). reflexivity. }
  destruct i as [|c i'].
  - change (digitpart ([] ++ 46%N :: f)) with (@None (list N * str)).
    simpl. rewrite Fp. destruct f; simpl; rewrite ?length_map; reflexivity.
  - assert (Ip : digitpart ((c :: i') ++ 46%N :: f) = Some (map dig (c :: i'), 46%N :: f)).
    { unfold digitpart. pose proof Hi as H0. simpl in H0. apply andb_true_iff in H0 as [Hc _].
      cbn [app]. rewrite Hc. change (c :: i' ++ 46%N :: f) with ((c :: i') ++ 46%N :: f).
      rewrite (digits_aux_app (c :: i') (46%N :: f) [] Hi). reflexivity. }
    rewrite Ip. simpl. rewrite Fp. destruct f; simpl; rewrite ?length_map; reflexivity.
Qed.

Lemma digit_dig_dot c : isdigit c = true -> dig_dot c = true.
Proof. unfold dig_dot. intros ->. reflexivity. Qed.

Lemma forallb_digit_dig_dot s : forallb isdigit s = true -> forallb dig_dot s = true.
Proof.
  induction s as [|c s IH]; simpl; [reflexivity|]. intros H. apply andb_true_iff in H as [Hc H].
  rewrite (digit_dig_dot _ Hc), IH by exact H. reflexivity.
Qed.

Lemma filter_digits s : forallb isdigit s = true -> filter (fun x : char => negb (N.eqb 46 x)) s = s.
Proof.
  induction s as [|c s IH]; cbn [filter forallb]; [reflexivity|]. intros H. apply andb_true_iff in H as [Hc H].
  rewrite IH by exact H. unfold isdigit, in_range in Hc. apply andb_true_iff in Hc as [H1 H2].
  apply N.leb_le in H1, H2. destruct (N.eqb_spec 46 c); [lia | reflexivity].
Qed.

Lemma map_digits s : forallb isdigit s = true -> map (fun x : char => if N.eqb 44 x then 46%N else x) s = s.
Proof.
  induction s as [|c s IH]; cbn [map forallb]; [reflexivity|]. intros H. apply andb_true_iff in H as [Hc H].
  rewrite IH by exact H. unfold isdigit, in_range in Hc. apply andb_true_iff in Hc as [H1 H2].
  apply N.leb_le in H1, H2. destruct (N.eqb_spec 44 c); [lia | reflexivity].
Qed.

Lemma sign_of_digit_dot s : forallb dig_dot s = true -> sign_of s = (false, s).
Proof.
  destruct s as [|c r]; [reflexivity|]. simpl. intros T. apply andb_true_iff in T as [T _].
  unfold sign_of. unfold dig_dot, isdigit, in_range in T.
  destruct (N.eqb_spec c 45); [subst; discriminate|]. destruct (N.eqb_spec c 43); [subst; discriminate|].
  reflexivity.
Qed.

(** [_conv_num] of a thousands dot: every [.] is dropped before parsing,
    so a dot anywhere leaves the value unchanged. *)
Theorem conv_num_drop_dot a b : conv_num (a ++ u "." ++ b) = conv_num (a ++ b).
Proof.
  unfold conv_num. rewrite !replace_dot, !filter_app. reflexivity.
Qed.

(** [_conv_num] of digits, a decimal comma and digits is the decimal number
    they denote: [i,f] is [(i f) / 10^|f|], where [i f] reads the digits of
    both parts as one integer. *)
Theorem conv_num_decimal i f :
  forallb isdigit i = true -> forallb isdigit f = true ->
  conv_num (i ++ u "," ++ f)
  = PFin (scale (digits_value (map (fun c => (c - 48)%N) (i ++ f))) (- Z.of_nat (List.length f))).
Proof.
  intros Hi Hf. unfold conv_num.
  rewrite replace_dot, filter_app, filter_digits by exact Hi. simpl filter.
  rewrite filter_digits by exact Hf. rewrite replace_comma, map_app, map_digits by exact Hi.
  simpl map. rewrite map_digits by exact Hf.

  unfold py_float.
  match goal with |- context [strip ?x] => set (t := x) end.
  assert (T : forallb dig_dot t = true).
  { unfold t. rewrite forallb_app. simpl. rewrite !forallb_digit_dig_dot by assumption. reflexivity. }
  rewrite (strip_id _ T), (sign_of_digit_dot _ T), (lower_id _ T).
  assert (E1 : str_eqb t (u "inf") = false) by (apply (str_eqb_head t 105%N); [exact T | reflexivity]).
  assert (E2 : str_eqb t (u "infinity") = false) by (apply (str_eqb_head t 105%N); [exact T | reflexivity]).
  assert (E3 : str_eqb t (u "nan") = false) by (apply (str_eqb_head t 110%N); [exact T | reflexivity]).
  rewrite E1, E2, E3.
  cbv beta iota.
  rewrite (p_number_decimal i f Hi Hf : p_number t = _).
  destruct i as [|c i'], f as [|d f']; simpl; try reflexivity; rewrite map_app; reflexivity.
Qed.

Lemma conv_num_decimal_witness :
  forallb isdigit (u "1234") = true /\ forallb isdigit (u "56") = true
  /\ conv_num (u "1234" ++ u "," ++ u "56")
     = PFin (scale (digits_value (map (fun c => (c - 48)%N) (u "1234" ++ u "56")))
                   (- Z.of_nat (List.length (u "56")))).
Proof.
  assert (H1 : forallb isdigit (u "1234") = true) by reflexivity.
  assert (H2 : forallb isdigit (u "56") = true) by reflexivity.
  split; [exact H1|]. split; [exact H2|]. exact (conv_num_decimal (u "1234") (u "56") H1 H2).
Defined.



End DecimalFacts.

(** * The Mondelez header block: first value wins for Fornecedor and Cliente *)
Module HeaderFieldFacts.
Import Py Re Rec.

Lemma pset_cliente p f v : f <> Cliente -> cliente (pset p f v) = cliente p.
Proof. destruct p, f; simpl; congruence. Qed.

Lemma pset_fornecedor p f v : f <> Fornecedor -> fornecedor (pset p f v) = fornecedor p.
Proof. destruct p, f; simpl; congruence. Qed.

Ltac field_tac P lem :=
  repeat match goal with
  | |- context [P (pset ?p ?f _)] => rewrite (lem p f) by discriminate
  | |- context [P (if ?b then _ else _)] => destruct b
  | |- context [P (match ?o with _ => _ end)] => destruct o
  end; first [reflexivity | assumption].

(** As [HeaderFacts.hnum], for a field [P] that the later blocks never set. *)
Ltac hfield P lem :=
  match goal with
  | |- P (if ?b then _ else ?X) = ?n =>
      let c := fresh "c" in let Ec := fresh "Ec" in let Hc := fresh "Hc" in
      remember X as c eqn:Ec;
      assert (Hc : P c = n) by (rewrite Ec; hfield P lem);
      clear Ec; field_tac P lem
  | |- _ => first [reflexivity | assumption | congruence]
  end.

(** Mondelez header block: once Cliente is non-empty no header line changes it,
    and once Fornecedor is non-empty no header line changes it (the guards
    [not current_pedido['Fornecedor']] and [elif not current_pedido['Cliente']]). *)
Theorem mondelez_header_first_wins l cp :
  (truthy (cliente cp) = true -> cliente (Mondelez.header l cp) = cliente cp) /\
  (truthy (fornecedor cp) = true -> fornecedor (Mondelez.header l cp) = fornecedor cp).
Proof.
  split; intro H; unfold Mondelez.header;
  match goal with
  | |- context [if Mondelez.has "R. Social"%string l then ?A else cp] =>
      set (c1 := if Mondelez.has "R. Social"%string l then A else cp)
  end;
  [ assert (Hc1 : cliente c1 = cliente cp) | assert (Hc1 : fornecedor c1 = fornecedor cp) ];
  try (clearbody c1; first [hfield cliente pset_cliente | hfield fornecedor pset_fornecedor]).
  - unfold c1; clear c1. destruct (Mondelez.has _ l); [|reflexivity].
    destruct (_ && _); [rewrite pset_cliente by discriminate; reflexivity|].
    rewrite H; reflexivity.
  - unfold c1; clear c1. destruct (Mondelez.has _ l); [|reflexivity].
    rewrite H; cbn [negb]; rewrite andb_false_r.
    destruct (negb _); [|reflexivity].
    destruct (search _ _); [|reflexivity].
    rewrite pset_fornecedor by discriminate; reflexivity.
Qed.

(** Witness: a header line naming the client leaves an already known client in place. *)
Lemma mondelez_header_first_wins_witness :
  let cp := pset (pset (novo_pedido_dict (u "123")) Cliente (u "ACME"))
                 Fornecedor (u "REDE BIZ SERVICOS E DISTRIBUICAO") in
  truthy (cliente cp) = true /\ truthy (fornecedor cp) = true /\
  cliente (Mondelez.header (u "R. Social OUTRO CLIENTE") cp) = cliente cp /\
  fornecedor (Mondelez.header (u "R. Social OUTRO CLIENTE") cp) = fornecedor cp.
Proof.
  intro cp.
  assert (H1 : truthy (cliente cp) = true) by reflexivity.
  assert (H2 : truthy (fornecedor cp) = true) by reflexivity.
  split; [exact H1|]; split; [exact H2|].
  split; [apply (proj1 (mondelez_header_first_wins (u "R. Social OUTRO CLIENTE") cp)); exact H1
         |apply (proj2 (mondelez_header_first_wins (u "R. Social OUTRO CLIENTE") cp)); exact H2].
Defined.

End HeaderFieldFacts.
